(** * A two-layer feed-forward network trained by backpropagation

    Shallow embedding of [src/main.cpp]: the transfer functions, the
    random initialisation, [Layer] (propagate, updateWeights,
    computeOutputDeltas, computeDeltas) and [NeuralNet] (evaluate, train),
    followed by the proofs of what they compute.

    Arithmetic.  The C++ type [float] is kept abstract behind the class
    [FloatOps]; the program is written once over that interface and read at
    two instances: IEEE-754 binary32, every operation rounded to nearest
    even on its own (module [B32], on the Standard Library's [SpecFloat]),
    and exact real arithmetic (module [Exact]).  A statement over an
    arbitrary [FloatOps] holds at both.  [expf] lives in a class of its own,
    [FloatExp], since only the transfer functions call it; binary32 leaves
    it open.

    Memory.  Buffers reached through [float*] are lists; a read or write
    outside the buffer is undefined behaviour in C++ and is [None] here.
    [size_t] indices are [nat]: every index that is used is below the
    length of an allocated buffer.  The one [size_t] product that is not
    an index, the element count [inputCount * outputCount] of the
    constructor of [Layer], wraps around modulo [2^64] ([size_t_mul]).
    [new] and [alloca] are taken to succeed: running out of memory is not
    modelled.  The epoch counter of [train] is a 32-bit [int], and its
    overflow is undefined behaviour too.

    Environment.  [rand()] and [RAND_MAX] come from the C library and are
    parameters of the construction. *)

From Stdlib Require Import ZArith List Bool Lia Reals Lra.
From Stdlib Require Import Floats.SpecFloat.
Import ListNotations.

Set Implicit Arguments.

(** ** Arithmetic of [float] *)

Class FloatOps (F : Type) : Type := {
  f_zero : F;                       (* 0.0f *)
  f_one : F;                        (* 1.0f *)
  f_0_4 : F;                        (* 0.4f *)
  f_0_5 : F;                        (* 0.5f *)
  f_of_int : Z -> F;                (* float( int ) *)
  f_add : F -> F -> F;
  f_sub : F -> F -> F;
  f_mul : F -> F -> F;
  f_div : F -> F -> F;
  f_opp : F -> F;                   (* unary - *)
  f_ge : F -> F -> bool;            (* >= *)
  f_mul_comm : forall x y, f_mul x y = f_mul y x
}.

Class FloatExp (F : Type) : Type := {
  f_exp : F -> F                    (* expf *)
}.

(** Left-to-right accumulation, the way the loops of the program add up
    their terms: [f_sum init [t0; t1; ...] = ((init + t0) + t1) + ...]. *)
Definition f_sum {F} `{FloatOps F} (init : F) (terms : list F) : F :=
  fold_left f_add terms init.

(** ** IEEE-754 binary32 *)

Module B32.

Definition prec : Z := 24.
Definition emax : Z := 128.

Definition float32 : Type := spec_float.

Definition add : float32 -> float32 -> float32 := SFadd prec emax.
Definition sub : float32 -> float32 -> float32 := SFsub prec emax.
Definition mul : float32 -> float32 -> float32 := SFmul prec emax.
Definition div : float32 -> float32 -> float32 := SFdiv prec emax.
Definition opp : float32 -> float32 := SFopp.

(** Conversion of an integer, rounded to nearest even. *)
Definition of_int (z : Z) : float32 := binary_normalize prec emax z 0 false.

(** [x >= y]; false as soon as one side is a NaN. *)
Definition ge (x y : float32) : bool :=
  match SFcompare x y with
  | Some Gt | Some Eq => true
  | _ => false
  end.

Definition pzero : float32 := S754_zero false.
Definition nzero : float32 := S754_zero true.
Definition pinf : float32 := S754_infinity false.
Definition one : float32 := S754_finite false 8388608 (-23).
Definition lit_0_5 : float32 := S754_finite false 8388608 (-24).
Definition lit_0_4 : float32 := S754_finite false 13421773 (-25).
Definition lit_0_2 : float32 := S754_finite false 13421773 (-26).
(** The binary32 number just below nine tenths, [0x3F666666]. *)
Definition lit_0_9 : float32 := S754_finite false 15099494 (-24).

Definition is_finite (x : float32) : bool :=
  match x with
  | S754_zero _ | S754_finite _ _ _ => true
  | _ => false
  end.

Definition is_zero (x : float32) : bool :=
  match x with
  | S754_zero _ => true
  | _ => false
  end.

(** Bit-identical, or negative zero turned into positive zero. *)
Definition unchanged_or_zero_sign (old new : float32) : Prop :=
  new = old \/ (old = nzero /\ new = pzero).

Lemma mul_comm (x y : float32) : mul x y = mul y x.
Proof.
  unfold mul.
  destruct x as [sx|sx| |sx mx ex], y as [sy|sy| |sy my ey]; simpl;
    rewrite ?(xorb_comm sy sx); try reflexivity.
  now rewrite (Pos.mul_comm my mx), (Z.add_comm ey ex).
Qed.

#[global] Instance ops : FloatOps float32 := {
  f_zero := pzero;
  f_one := one;
  f_0_4 := lit_0_4;
  f_0_5 := lit_0_5;
  f_of_int := of_int;
  f_add := add;
  f_sub := sub;
  f_mul := mul;
  f_div := div;
  f_opp := opp;
  f_ge := ge;
  f_mul_comm := mul_comm
}.

End B32.

(** ** Exact real arithmetic *)

Module Exact.

Definition ge (x y : R) : bool := if Rle_dec y x then true else false.

#[global] Instance ops : FloatOps R := {
  f_zero := 0%R;
  f_one := 1%R;
  f_0_4 := (4 / 10)%R;
  f_0_5 := (1 / 2)%R;
  f_of_int := IZR;
  f_add := Rplus;
  f_sub := Rminus;
  f_mul := Rmult;
  f_div := Rdiv;
  f_opp := Ropp;
  f_ge := ge;
  f_mul_comm := Rmult_comm
}.

#[global] Instance libm : FloatExp R := {
  f_exp := exp
}.

(** The derivative of the default activation as the specification gives it:
    1 for [x >= 0] and [e^x] for [x < 0]. *)
Definition elu_true_derivative (x : R) : R :=
  if Rle_dec 0 x then 1%R else exp x.

End Exact.

(** ** Undefined behaviour and mutable state

    A computation over a mutable object of type [St] either goes wrong
    ([None]: an access outside a buffer, a signed overflow) or returns a value
    and the new state of the object. *)

Definition M (St A : Type) : Type := St -> option (A * St).

Definition ret {St A} (a : A) : M St A := fun s => Some (a, s).

Definition bind {St A B} (m : M St A) (k : A -> M St B) : M St B :=
  fun s => match m s with
           | Some (a, s') => k a s'
           | None => None
           end.

Definition gets {St A} (f : St -> A) : M St A := fun s => Some (f s, s).

Definition modify {St} (f : St -> St) : M St unit := fun s => Some (tt, f s).

Definition lift {St A} (o : option A) : M St A :=
  fun s => match o with
           | Some a => Some (a, s)
           | None => None
           end.

Declare Scope monad_scope.
Delimit Scope monad_scope with monad.
Notation "x <- m ;; k" := (bind m (fun x => k))
  (at level 61, m at next level, right associativity) : monad_scope.
Notation "' p <- m ;; k" := (bind m (fun p => k))
  (at level 61, p pattern, m at next level, right associativity) : monad_scope.
Notation "m ;; k" := (bind m (fun _ => k))
  (at level 61, right associativity) : monad_scope.
Open Scope monad_scope.

(** [for( size_t i = first; i < first + count; ++i ) body], with the local
    variables the body updates carried in [a]. *)
Fixpoint for_loop {St A} (first count : nat) (body : nat -> A -> M St A) (a : A)
  : M St A :=
  match count with
  | O => ret a
  | S count' =>
      a' <- body first a ;; for_loop (S first) count' body a'
  end.

(** ** Buffers behind a [float*] *)

Definition load {F} (p : list F) (i : nat) : option F := nth_error p i.

Fixpoint store {F} (p : list F) (i : nat) (v : F) : option (list F) :=
  match p, i with
  | [], _ => None
  | _ :: t, O => Some (v :: t)
  | h :: t, S j =>
      match store t j v with
      | Some t' => Some (h :: t')
      | None => None
      end
  end.

(** [new float[ n ]] and [alloca]: [n] floats of indeterminate value.  The
    program writes every element before it reads it, see
    [randomize_overwrites] and [propagate_overwrites]. *)
Definition alloc {F} `{FloatOps F} (n : nat) : list F := repeat f_zero n.

(** [size_t] is 64 bits wide and its arithmetic wraps around: the product
    of two [size_t] values is the product modulo [2^64]. *)
Definition SIZE_MAX : Z := 18446744073709551615.

Definition size_t_mul (a b : nat) : nat :=
  Z.to_nat ((Z.of_nat a * Z.of_nat b) mod (SIZE_MAX + 1)).

(** [&p[ offset ]]: the buffer seen from [offset] on. *)
Definition offset_ptr {F} (p : list F) (offset : nat) : list F := skipn offset p.

(** ** The program *)

Section Program.

Context {F : Type} {ops : FloatOps F} {libm : FloatExp F}.

(** *** Transfer functions and their derivatives

    [transfer] and [transferDerivative] are the exponential-linear pair;
    of the alternatives the file also defines, the sigmoid pair is kept
    for comparison. *)

Definition elu (fValue : F) : F :=
  if f_ge fValue f_zero then fValue else f_sub (f_exp fValue) f_one.

Definition eluDerivative (fValue : F) : F :=
  if f_ge fValue f_zero then f_one else f_exp fValue.

Definition sigmoid (fValue : F) : F :=
  f_div f_one (f_add f_one (f_exp (f_opp fValue))).

Definition sigmoidDerivative (fValue : F) : F :=
  f_mul fValue (f_sub f_one fValue).

Definition transfer (fValue : F) : F := elu fValue.

Definition transferDerivative (fValue : F) : F := eluDerivative fValue.

(** *** Random initialisation

    [rand()] reads and advances the hidden state of the C library's
    generator; [RAND_MAX] comes from [<stdlib.h>].  Both are parameters. *)

Section Random.

Variable RAND_MAX : Z.
Variable Rng : Type.
Variable rand_step : Rng -> Z * Rng.

Definition rand : M Rng Z := fun s => Some (rand_step s).

Definition sample_to_float (r : Z) : F :=
  f_add (f_mul (f_div (f_of_int r) (f_of_int RAND_MAX)) f_0_4) f_0_5.

Definition randomFloat : M Rng F :=
  r <- rand ;; ret (sample_to_float r).

Definition randomize (pValues : list F) (count : nat) : M Rng (list F) :=
  for_loop 0 count
    (fun i pValues =>
       v <- randomFloat ;;
       lift (store pValues i v))
    pValues.

End Random.

(** *** Layer *)

Record Layer : Type := mkLayer {
  m_inputCount : nat;
  m_outputCount : nat;
  m_pWeights : list F;
  m_pBiases : list F
}.

Definition set_weights (w : list F) (L : Layer) : Layer :=
  mkLayer (m_inputCount L) (m_outputCount L) w (m_pBiases L).

Definition set_biases (b : list F) (L : Layer) : Layer :=
  mkLayer (m_inputCount L) (m_outputCount L) (m_pWeights L) b.

(** [m_pWeights[ i ]] and [m_pBiases[ o ]] as lvalues of the object. *)
Definition read_weight (i : nat) : M Layer F :=
  w <- gets m_pWeights ;; lift (load w i).

Definition write_weight (i : nat) (v : F) : M Layer unit :=
  w <- gets m_pWeights ;;
  w' <- lift (store w i v) ;;
  modify (set_weights w').

Definition read_bias (o : nat) : M Layer F :=
  b <- gets m_pBiases ;; lift (load b o).

Definition write_bias (o : nat) (v : F) : M Layer unit :=
  b <- gets m_pBiases ;;
  b' <- lift (store b o v) ;;
  modify (set_biases b').

Section Construction.

Variable RAND_MAX : Z.
Variable Rng : Type.
Variable rand_step : Rng -> Z * Rng.

(** The constructor has no failure path: it allocates and randomizes
    whatever the two counts are.  [inputCount * outputCount] is a product
    of [size_t]. *)
Definition Layer_new (inputCount outputCount : nat) : M Rng Layer :=
  let pWeights := alloc (size_t_mul inputCount outputCount) in
  let pBiases := alloc outputCount in
  pWeights' <- randomize RAND_MAX rand_step pWeights (size_t_mul inputCount outputCount) ;;
  pBiases' <- randomize RAND_MAX rand_step pBiases outputCount ;;
  ret (mkLayer inputCount outputCount pWeights' pBiases').

End Construction.

Definition propagate (pInputs pOutputs : list F) : M Layer (list F) :=
  outputCount <- gets m_outputCount ;;
  for_loop 0 outputCount
    (fun o pOutputs =>
       inputCount <- gets m_inputCount ;;
       let pWeights := inputCount * o in
       fActivation <- read_bias o ;;
       fActivation <-
         for_loop 0 inputCount
           (fun i fActivation =>
              x <- lift (load pInputs i) ;;
              w <- read_weight (pWeights + i) ;;
              ret (f_add fActivation (f_mul x w)))
           fActivation ;;
       lift (store pOutputs o (transfer fActivation)))
    pOutputs.

Definition updateWeights (pInputs pDeltas : list F) (fLearningRate : F)
  : M Layer unit :=
  outputCount <- gets m_outputCount ;;
  for_loop 0 outputCount
    (fun o _ =>
       inputCount <- gets m_inputCount ;;
       let pWeights := inputCount * o in
       d <- lift (load pDeltas o) ;;
       let fChange := f_mul d fLearningRate in
       for_loop 0 inputCount
         (fun i _ =>
            w <- read_weight (pWeights + i) ;;
            x <- lift (load pInputs i) ;;
            write_weight (pWeights + i) (f_add w (f_mul fChange x)))
         tt ;;
       b <- read_bias o ;;
       write_bias o (f_add b fChange))
    tt.

(** Returns the accumulated error together with the deltas written. *)
Definition computeOutputDeltas (pOutputValues pExpectedValues pDeltas : list F)
  : M Layer (F * list F) :=
  outputCount <- gets m_outputCount ;;
  for_loop 0 outputCount
    (fun o '(fTotalQuadraticError, pDeltas) =>
       fOutput <- lift (load pOutputValues o) ;;
       e <- lift (load pExpectedValues o) ;;
       let fError := f_sub e fOutput in
       pDeltas' <- lift (store pDeltas o
                           (f_mul fError (transferDerivative fOutput))) ;;
       ret (f_add fTotalQuadraticError (f_mul fError fError), pDeltas'))
    (f_zero, pDeltas).

Definition computeDeltas (pNextLayer : Layer)
  (pNextDeltas pValues pDeltas : list F) : M Layer (list F) :=
  outputCount <- gets m_outputCount ;;
  for_loop 0 outputCount
    (fun o pDeltas =>
       fError <-
         for_loop 0 (m_outputCount pNextLayer)
           (fun i fError =>
              d <- lift (load pNextDeltas i) ;;
              w <- lift (load (m_pWeights pNextLayer) (outputCount * i + o)) ;;
              ret (f_add fError (f_mul d w)))
           f_zero ;;
       v <- lift (load pValues o) ;;
       lift (store pDeltas o (f_mul fError (transferDerivative v))))
    pDeltas.

End Program.

Arguments Layer F : clear implicits.

(** *** NeuralNet *)

(** [int] is 32 bits wide; [++epoch] at [INT_MAX] is a signed overflow. *)
Definition INT_MAX : Z := 2147483647.

Definition int_incr (n : Z) : option Z :=
  if Z.ltb n INT_MAX then Some (n + 1)%Z else None.

(** [for( int epoch = 0; epoch < epochCount; ++epoch ) body] with
    [epochCount] a [size_t].  [epoch] counts the iterations done, so the
    guard holds exactly while [remaining], the iterations still to run, is
    not zero; the counter itself is the C [int]. *)
Fixpoint for_loop_int {St A} (epoch : Z) (remaining : nat)
  (body : Z -> A -> M St A) (a : A) : M St A :=
  match remaining with
  | O => ret a
  | S remaining' =>
      a' <- body epoch a ;;
      epoch' <- lift (int_incr epoch) ;;
      for_loop_int epoch' remaining' body a'
  end.

Section Network.

Context {F : Type} {ops : FloatOps F} {libm : FloatExp F}.

Record NeuralNet : Type := mkNeuralNet {
  m_hiddenLayer : Layer F;
  m_outputLayer : Layer F
}.

(** A call of a member function of one of the two layers. *)
Definition on_hidden {A} (m : M (Layer F) A) : M NeuralNet A :=
  fun net => match m (m_hiddenLayer net) with
             | Some (a, l) => Some (a, mkNeuralNet l (m_outputLayer net))
             | None => None
             end.

Definition on_output {A} (m : M (Layer F) A) : M NeuralNet A :=
  fun net => match m (m_outputLayer net) with
             | Some (a, l) => Some (a, mkNeuralNet (m_hiddenLayer net) l)
             | None => None
             end.

Section Construction.

Variable RAND_MAX : Z.
Variable Rng : Type.
Variable rand_step : Rng -> Z * Rng.

Definition NeuralNet_new (inputCount hiddenCount outputCount : nat)
  : M Rng NeuralNet :=
  hidden <- Layer_new RAND_MAX rand_step inputCount hiddenCount ;;
  output <- Layer_new RAND_MAX rand_step hiddenCount outputCount ;;
  ret (mkNeuralNet hidden output).

End Construction.

Definition evaluate (pInputs pOutputs : list F) : M NeuralNet (list F) :=
  hiddenCount <- on_hidden (gets (@m_outputCount F)) ;;
  let pHiddenOutputs := alloc hiddenCount in
  pHiddenOutputs <- on_hidden (propagate pInputs pHiddenOutputs) ;;
  on_output (propagate pHiddenOutputs pOutputs).

(** The four scratch buffers of [train]. *)
Record Scratch : Type := mkScratch {
  pHiddenValues : list F;
  pHiddenDeltas : list F;
  pOutputValues : list F;
  pOutputDeltas : list F
}.

(** The body of the inner loop of [train], for the example at [test]. *)
Definition train_example (pAllInputs pAllExpectedOutputs : list F)
  (inputCount outputCount : nat) (fLearningRate : F)
  (test : nat) (locals : F * Scratch) : M NeuralNet (F * Scratch) :=
  let '(fTotalQuadraticError, buf) := locals in
  let pInputs := offset_ptr pAllInputs (test * inputCount) in
  let pExpectedOutputs := offset_ptr pAllExpectedOutputs (test * outputCount) in
  (* Propagate to get current state *)
  hv <- on_hidden (propagate pInputs (pHiddenValues buf)) ;;
  ov <- on_output (propagate hv (pOutputValues buf)) ;;
  (* Backpropagate errors to deltas *)
  '(err, od) <- on_output (computeOutputDeltas ov pExpectedOutputs (pOutputDeltas buf)) ;;
  next <- gets m_outputLayer ;;
  hd <- on_hidden (computeDeltas next od hv (pHiddenDeltas buf)) ;;
  (* Update weights and biases with deltas *)
  on_output (updateWeights hv od fLearningRate) ;;
  on_hidden (updateWeights pInputs hd fLearningRate) ;;
  ret (f_add fTotalQuadraticError err, mkScratch hv hd ov od).

(** The body of the outer loop: one epoch, then the line it prints. *)
Definition train_epoch (pAllInputs pAllExpectedOutputs : list F)
  (inputCount outputCount testCount : nat) (fLearningRate : F)
  (epoch : Z) (locals : Scratch * list (Z * F))
  : M NeuralNet (Scratch * list (Z * F)) :=
  let '(buf, printed) := locals in
  '(fTotalQuadraticError, buf') <-
    for_loop 0 testCount
      (train_example pAllInputs pAllExpectedOutputs inputCount outputCount fLearningRate)
      (f_zero, buf) ;;
  ret (buf', printed ++ [(epoch, fTotalQuadraticError)]).

(** [train] returns the lines it prints: the epoch and its total error. *)
Definition train (pAllInputs pAllExpectedOutputs : list F)
  (testCount epochCount : nat) (fLearningRate : F)
  : M NeuralNet (list (Z * F)) :=
  inputCount <- on_hidden (gets (@m_inputCount F)) ;;
  hiddenCount <- on_hidden (gets (@m_outputCount F)) ;;
  outputCount <- on_output (gets (@m_outputCount F)) ;;
  let buf := mkScratch (alloc hiddenCount) (alloc hiddenCount)
                       (alloc outputCount) (alloc outputCount) in
  '(_, printed) <-
    for_loop_int 0 epochCount
      (train_epoch pAllInputs pAllExpectedOutputs inputCount outputCount
                   testCount fLearningRate)
      (buf, []) ;;
  ret printed.

End Network.

Arguments NeuralNet F : clear implicits.
Arguments Scratch F : clear implicits.

(** ** What the operations compute, in the words of the specification

    These definitions follow the specification, not the code; the theorems
    below compare the two. *)

Section ClosedForms.

Context {F : Type} {ops : FloatOps F} {libm : FloatExp F}.

(** [p[ i ]] *)
Definition at_index (p : list F) (i : nat) : F := nth i p f_zero.

(** [W[o, i]]: element [i] of row [o] of the row-major [n_out x n_in]
    weight matrix. *)
Definition W_at (L : Layer F) (o i : nat) : F :=
  at_index (m_pWeights L) (o * m_inputCount L + i).

Definition b_at (L : Layer F) (o : nat) : F := at_index (m_pBiases L) o.

(** Data-model invariant of a layer: [W] has [n_in * n_out] elements and
    [b] has [n_out]. *)
Definition Layer_wf (L : Layer F) : Prop :=
  length (m_pWeights L) = m_inputCount L * m_outputCount L /\
  length (m_pBiases L) = m_outputCount L.

(** [a_o = b_o + sum_i inputs[i] * W[o,i]] *)
Definition weighted_sum (L : Layer F) (inputs : list F) (o : nat) : F :=
  f_sum (b_at L o)
    (map (fun i => f_mul (at_index inputs i) (W_at L o i))
         (seq 0 (m_inputCount L))).

Definition spec_propagate (L : Layer F) (inputs : list F) : list F :=
  map (fun o => transfer (weighted_sum L inputs o)) (seq 0 (m_outputCount L)).

(** [error_o = expected_o - outputValues_o] *)
Definition output_error (outputValues expectedValues : list F) (o : nat) : F :=
  f_sub (at_index expectedValues o) (at_index outputValues o).

Definition spec_outputDeltas (n_out : nat) (outputValues expectedValues : list F)
  : list F :=
  map (fun o => f_mul (output_error outputValues expectedValues o)
                      (transferDerivative (at_index outputValues o)))
      (seq 0 n_out).

Definition spec_squaredError (n_out : nat) (outputValues expectedValues : list F)
  : F :=
  f_sum f_zero
    (map (fun o => f_mul (output_error outputValues expectedValues o)
                         (output_error outputValues expectedValues o))
         (seq 0 n_out)).

(** [error_o = sum_k nextDeltas[k] * nextLayer.W[k, o]] *)
Definition backpropagated_error (nextLayer : Layer F) (nextDeltas : list F)
  (o : nat) : F :=
  f_sum f_zero
    (map (fun k => f_mul (at_index nextDeltas k) (W_at nextLayer k o))
         (seq 0 (m_outputCount nextLayer))).

Definition spec_deltas (L nextLayer : Layer F) (nextDeltas thisLayerValues : list F)
  : list F :=
  map (fun o => f_mul (backpropagated_error nextLayer nextDeltas o)
                      (transferDerivative (at_index thisLayerValues o)))
      (seq 0 (m_outputCount L)).

(** [W[o,i] += learningRate * deltas[o] * inputs[i]] and
    [b[o] += learningRate * deltas[o]]; position [j] of the row-major
    matrix is row [j / n_in], column [j mod n_in]. *)
Definition spec_updateWeights (L : Layer F) (inputs deltas : list F)
  (learningRate : F) : Layer F :=
  mkLayer (m_inputCount L) (m_outputCount L)
    (map (fun j =>
            f_add (at_index (m_pWeights L) j)
                  (f_mul (f_mul learningRate (at_index deltas (j / m_inputCount L)))
                         (at_index inputs (j mod m_inputCount L))))
         (seq 0 (m_inputCount L * m_outputCount L)))
    (map (fun o => f_add (b_at L o) (f_mul learningRate (at_index deltas o)))
         (seq 0 (m_outputCount L))).

(** Steps 1 to 4 of training on one example: forward, both deltas from
    the layers as they are before any update, then both updates. *)
Definition spec_train_example (learningRate : F) (net : NeuralNet F)
  (example : list F * list F) : NeuralNet F :=
  let '(input, expected) := example in
  let hidden := m_hiddenLayer net in
  let output := m_outputLayer net in
  let hiddenValues := spec_propagate hidden input in
  let outputValues := spec_propagate output hiddenValues in
  let outputDeltas := spec_outputDeltas (m_outputCount output) outputValues expected in
  let hiddenDeltas := spec_deltas hidden output outputDeltas hiddenValues in
  mkNeuralNet (spec_updateWeights hidden input hiddenDeltas learningRate)
              (spec_updateWeights output hiddenValues outputDeltas learningRate).

(** The squared error of one example under the current parameters. *)
Definition spec_example_error (net : NeuralNet F) (example : list F * list F) : F :=
  let '(input, expected) := example in
  let outputValues :=
    spec_propagate (m_outputLayer net) (spec_propagate (m_hiddenLayer net) input) in
  spec_squaredError (m_outputCount (m_outputLayer net)) outputValues expected.

(** One epoch: the examples in the order given; the total error is
    accumulated example by example, each measured before its update. *)
Definition spec_epoch (learningRate : F) (examples : list (list F * list F))
  (net : NeuralNet F) : F * NeuralNet F :=
  fold_left
    (fun '(total, net) example =>
       (f_add total (spec_example_error net example),
        spec_train_example learningRate net example))
    examples (f_zero, net).

(** The network after [k] epochs. *)
Fixpoint spec_train (learningRate : F) (examples : list (list F * list F))
  (k : nat) (net : NeuralNet F) : NeuralNet F :=
  match k with
  | O => net
  | S k' =>
      snd (spec_epoch learningRate examples (spec_train learningRate examples k' net))
  end.

(** The report of epoch [k]: its index and its total error. *)
Definition spec_report (learningRate : F) (examples : list (list F * list F))
  (net : NeuralNet F) (k : nat) : Z * F :=
  (Z.of_nat k,
   fst (spec_epoch learningRate examples (spec_train learningRate examples k net))).

(** Example [t] of a flat buffer whose examples are [width] wide. *)
Definition slice (buffer : list F) (width t : nat) : list F :=
  firstn width (skipn (t * width) buffer).

Definition examples_of (pAllInputs pAllExpectedOutputs : list F)
  (inputCount outputCount testCount : nat) : list (list F * list F) :=
  map (fun t => (slice pAllInputs inputCount t,
                 slice pAllExpectedOutputs outputCount t))
      (seq 0 testCount).

Definition NeuralNet_wf (net : NeuralNet F) : Prop :=
  Layer_wf (m_hiddenLayer net) /\ Layer_wf (m_outputLayer net) /\
  m_outputCount (m_hiddenLayer net) = m_inputCount (m_outputLayer net).

(** The closed forms read only the first [width] elements of a buffer. *)
Definition agree_upto (width : nat) (p q : list F) : Prop :=
  forall i, i < width -> at_index p i = at_index q i.

(** A well-formed network of widths [n_in], [n_hid], [n_out]. *)
Definition net_shape (n_in n_hid n_out : nat) (net : NeuralNet F) : Prop :=
  Layer_wf (m_hiddenLayer net) /\ Layer_wf (m_outputLayer net) /\
  m_inputCount (m_hiddenLayer net) = n_in /\
  m_outputCount (m_hiddenLayer net) = n_hid /\
  m_inputCount (m_outputLayer net) = n_hid /\
  m_outputCount (m_outputLayer net) = n_out.

Definition scratch_fits (n_hid n_out : nat) (buf : Scratch F) : Prop :=
  length (pHiddenValues buf) = n_hid /\ length (pHiddenDeltas buf) = n_hid /\
  length (pOutputValues buf) = n_out /\ length (pOutputDeltas buf) = n_out.

End ClosedForms.

(** ** Values drawn from [rand()] *)

(** The next [n] values of [rand()] from generator state [s], and the state
    they leave. *)
Fixpoint draws {Rng : Type} (rand_step : Rng -> Z * Rng) (n : nat) (s : Rng)
  : list Z * Rng :=
  match n with
  | O => ([], s)
  | S n' =>
      let '(r, s1) := rand_step s in
      let '(rs, s2) := draws rand_step n' s1 in
      (r :: rs, s2)
  end.

(** A small linear congruential generator with [RAND_MAX = 32767], in the
    style of the sample [rand] of the C standard; it instantiates the
    generator wherever a concrete one is needed. *)
Module Lcg.

Definition RAND_MAX : Z := 32767.

Definition rand_step (next : Z) : Z * Z :=
  let next' := ((next * 1103515245 + 12345) mod 4294967296)%Z in
  (((next' / 65536) mod 32768)%Z, next').

End Lcg.

(** ** Concrete data for the instances below *)

Module Demo.

Import Exact.

Open Scope R_scope.

(** A 2-to-1 layer over exact arithmetic. *)
Definition layer : Layer R := mkLayer 2 1 [1; 2] [3].

(** A 1-2-1 network over exact arithmetic. *)
Definition hidden : Layer R := mkLayer 1 2 [1; 2] [0; 0].
Definition output : Layer R := mkLayer 2 1 [1; 1] [0].
Definition net : NeuralNet R := mkNeuralNet hidden output.

Close Scope R_scope.

End Demo.

(** A 1-to-1 layer over binary32, with weight and bias one half. *)
Module Demo32.

Definition layer : Layer B32.float32 := mkLayer 1 1 [B32.lit_0_5] [B32.lit_0_5].

End Demo32.

(** ** The rest of the file: alternative transfer functions, [print], [main]

    The rectifier and softplus pairs need [fmax], [>] and [logf]; the data
    of [main] needs two more literals.  Each comes in a class of its own. *)

Class FloatMax (F : Type) : Type := {
  f_fmax : F -> F -> F;             (* fmax *)
  f_gt : F -> F -> bool             (* > *)
}.

Class FloatLog (F : Type) : Type := {
  f_log : F -> F                    (* logf *)
}.

Class FloatLiterals (F : Type) : Type := {
  f_0_2 : F;                        (* 0.2f *)
  f_0_8 : F                         (* 0.8f *)
}.

Module B32Alt.

(** [fmax]: a NaN argument is ignored; of two zeros the first is returned
    (C leaves the choice between [+0] and [-0] open). *)
Definition fmax (x y : B32.float32) : B32.float32 :=
  match SFcompare x y with
  | Some Lt => y
  | Some _ => x
  | None => match x with S754_nan => y | _ => x end
  end.

(** [x > y]; false as soon as one side is a NaN. *)
Definition gt (x y : B32.float32) : bool :=
  match SFcompare x y with
  | Some Gt => true
  | _ => false
  end.

Definition lit_0_8 : B32.float32 := S754_finite false 13421773 (-24).

#[global] Instance max_ops : FloatMax B32.float32 := {
  f_fmax := fmax;
  f_gt := gt
}.

#[global] Instance literals : FloatLiterals B32.float32 := {
  f_0_2 := B32.lit_0_2;
  f_0_8 := lit_0_8
}.

End B32Alt.

Module ExactAlt.

Definition gt (x y : R) : bool := if Rlt_dec y x then true else false.

#[global] Instance max_ops : FloatMax R := {
  f_fmax := Rmax;
  f_gt := gt
}.

#[global] Instance log_ops : FloatLog R := {
  f_log := ln
}.

#[global] Instance literals : FloatLiterals R := {
  f_0_2 := (2 / 10)%R;
  f_0_8 := (8 / 10)%R
}.

End ExactAlt.

Section Alternatives.

Context {F : Type} {ops : FloatOps F} {libm : FloatExp F}.
Context {max_ops : FloatMax F} {log_ops : FloatLog F}.

Definition relu (fValue : F) : F := f_fmax f_zero fValue.

Definition reluDerivative (fValue : F) : F :=
  if f_gt fValue f_zero then f_one else f_zero.

Definition softplus (fValue : F) : F :=
  f_log (f_add f_one (f_exp fValue)).

Definition softplusDerivative (fValue : F) : F := sigmoid fValue.

End Alternatives.

(** [( int )i] for a [size_t] [i]: the value modulo [2^32], read as a
    signed 32-bit number. *)
Definition int_of_size_t (i : nat) : Z :=
  ((Z.of_nat i + 2147483648) mod 4294967296 - 2147483648)%Z.

(** [print]: the state is the text written so far, one entry per line:
    the name, the index and the value that [printf] formats. *)
Definition print {F Name : Type} (strName : Name) (pValues : list F) (count : nat)
  : M (list (Name * Z * F)) unit :=
  for_loop 0 count
    (fun i _ =>
       v <- lift (load pValues i) ;;
       modify (fun out => out ++ [(strName, int_of_size_t i, v)]))
    tt.

Section Main.

Context {F : Type} {ops : FloatOps F} {libm : FloatExp F}.
Context {literals : FloatLiterals F}.

Definition s_testCount : nat := 4.

Definition s_testInputData : list F := [f_zero; f_0_2; f_0_8; f_one].

Definition s_testOutputData : list F := [f_one; f_0_8; f_0_2; f_zero].

(** A member function called on a local object: the object is threaded
    through the result, the ambient state is left alone. *)
Definition call_on {St A} (net : NeuralNet F) (m : M (NeuralNet F) A)
  : M St (A * NeuralNet F) :=
  fun s => match m net with
           | Some (a, net') => Some ((a, net'), s)
           | None => None
           end.

Variable RAND_MAX : Z.
Variable Rng : Type.
Variable rand_step : Rng -> Z * Rng.

(** [main] returns what it prints, the epoch lines of [train] and then one
    line (input, output) per test input, and its exit code. *)
Definition main : M Rng (list (Z * F) * list (F * F) * Z) :=
  net <- NeuralNet_new RAND_MAX rand_step 1 8 1 ;;
  (* Learn *)
  let epochCount := 50 in
  let fLearningRate := f_0_2 in
  '(printed, net) <-
    call_on net (train s_testInputData s_testOutputData s_testCount
                       epochCount fLearningRate) ;;
  (* Check if learned *)
  let outputs := [f_zero] in
  '(lines, _) <-
    for_loop 0 s_testCount
      (fun i '(lines, outputs) =>
         '(outputs', _) <-
           call_on net (evaluate (offset_ptr s_testInputData i) outputs) ;;
         x <- lift (load s_testInputData i) ;;
         y <- lift (load outputs' 0) ;;
         ret (lines ++ [(x, y)], outputs'))
      ([], outputs) ;;
  ret (printed, lines, 0%Z).

End Main.

Section MoreClosedForms.

Context {F : Type} {ops : FloatOps F} {libm : FloatExp F}.
Context {literals : FloatLiterals F}.

(** What [main] prints for test input [i], on the trained network. *)
Definition checked_line (trained : NeuralNet F) (i : nat) : F * F :=
  let x := at_index s_testInputData i in
  (x, at_index (spec_propagate (m_outputLayer trained)
                  (spec_propagate (m_hiddenLayer trained) [x])) 0).

(** The network reproduces the expected output of the example exactly. *)
Definition fits (net : NeuralNet F) (example : list F * list F) : Prop :=
  spec_propagate (m_outputLayer net) (spec_propagate (m_hiddenLayer net) (fst example))
  = snd example.

(** Every delta is zero. *)
Definition all_zero (deltas : list F) : Prop :=
  forall k, at_index deltas k = f_zero.

End MoreClosedForms.

(** * Proofs *)

(** ** The concrete arithmetic and generator *)

(** The binary32 literals are the correctly rounded decimals. *)
Example lit_0_4_rounded : B32.div (B32.of_int 4) (B32.of_int 10) = B32.lit_0_4.
Proof. vm_compute. reflexivity. Qed.

Example lit_0_5_rounded : B32.div (B32.of_int 1) (B32.of_int 2) = B32.lit_0_5.
Proof. vm_compute. reflexivity. Qed.

Example lit_0_2_rounded : B32.div (B32.of_int 2) (B32.of_int 10) = B32.lit_0_2.
Proof. vm_compute. reflexivity. Qed.

Example lit_0_9_rounded : B32.div (B32.of_int 9) (B32.of_int 10) = B32.lit_0_9.
Proof. vm_compute. reflexivity. Qed.

Example one_rounded : B32.of_int 1 = B32.one.
Proof. vm_compute. reflexivity. Qed.


(** ** Reasoning about the monad, loops and buffers *)

Unset Implicit Arguments.

Lemma bind_Some {St A B} (m : M St A) (k : A -> M St B) s a s' :
  m s = Some (a, s') -> bind m k s = k a s'.
Proof. unfold bind. now intros ->. Qed.

Lemma bind_None {St A B} (m : M St A) (k : A -> M St B) s :
  m s = None -> bind m k s = None.
Proof. unfold bind. now intros ->. Qed.

Lemma bind_gets {St A B} (f : St -> A) (k : A -> M St B) s :
  bind (gets f) k s = k (f s) s.
Proof. reflexivity. Qed.

Lemma bind_lift_Some {St A B} (o : option A) (k : A -> M St B) s a :
  o = Some a -> bind (lift o) k s = k a s.
Proof. now intros ->. Qed.

Ltac bind_step H := rewrite (bind_Some _ _ _ _ _ H).
Ltac lift_step H := rewrite (bind_lift_Some _ _ _ _ H).

Lemma bind_ret {St A B} (a : A) (k : A -> M St B) s :
  bind (ret a) k s = k a s.
Proof. reflexivity. Qed.

(** Loop rule: an invariant that holds on entry and is carried by every
    iteration holds on exit, and the loop does not go wrong. *)
Lemma for_loop_inv {St A} (I : nat -> A -> St -> Prop) (body : nat -> A -> M St A) :
  forall count first a s,
    I first a s ->
    (forall i a s, first <= i < first + count -> I i a s ->
       exists a' s', body i a s = Some (a', s') /\ I (S i) a' s') ->
    exists a' s', for_loop first count body a s = Some (a', s') /\
                  I (first + count) a' s'.
Proof.
  induction count as [|count IH]; intros first a s HI Hstep; simpl.
  - exists a, s. rewrite Nat.add_0_r. now split.
  - destruct (Hstep first a s) as (a1 & s1 & Hb & HI1); [lia | exact HI |].
    bind_step Hb.
    destruct (IH (S first) a1 s1 HI1) as (a2 & s2 & Hl & HI2).
    + intros i a' s' Hi. apply Hstep. lia.
    + exists a2, s2. split; [exact Hl|].
      now replace (first + S count) with (S first + count) by lia.
Qed.

Lemma for_loop_int_inv {St A} (I : Z -> A -> St -> Prop) (body : Z -> A -> M St A) :
  forall remaining epoch a s,
    (epoch + Z.of_nat remaining <= INT_MAX)%Z ->
    I epoch a s ->
    (forall e a s, (epoch <= e < epoch + Z.of_nat remaining)%Z -> I e a s ->
       exists a' s', body e a s = Some (a', s') /\ I (e + 1)%Z a' s') ->
    exists a' s', for_loop_int epoch remaining body a s = Some (a', s') /\
                  I (epoch + Z.of_nat remaining)%Z a' s'.
Proof.
  induction remaining as [|n IH]; intros epoch a s Hmax HI Hstep.
  - exists a, s. simpl. rewrite Z.add_0_r. now split.
  - cbn [for_loop_int].
    destruct (Hstep epoch a s) as (a1 & s1 & Hb & HI1); [lia | exact HI |].
    bind_step Hb.
    assert (Hinc : int_incr epoch = Some (epoch + 1)%Z).
    { unfold int_incr. destruct (Z.ltb_spec epoch INT_MAX); [reflexivity | lia]. }
    lift_step Hinc.
    destruct (IH (epoch + 1)%Z a1 s1) as (a2 & s2 & Hl & HI2); [lia | exact HI1 | |].
    + intros e a' s' He. apply Hstep. lia.
    + exists a2, s2. split; [exact Hl|].
      now replace (epoch + Z.of_nat (S n))%Z
        with (epoch + 1 + Z.of_nat n)%Z by lia.
Qed.


Section Buffers.

Context {F : Type}.

Lemma store_Some (p : list F) (i : nat) (v : F) :
  i < length p -> exists p', store p i v = Some p'.
Proof.
  revert i. induction p as [|h t IH]; intros [|i] Hi; simpl in *; try lia.
  - now eexists.
  - destruct (IH i) as (t' & ->); [lia|]. now eexists.
Qed.

Lemma store_None (p : list F) (i : nat) (v : F) :
  length p <= i -> store p i v = None.
Proof.
  revert i. induction p as [|h t IH]; intros [|i] Hi; simpl in *;
    try reflexivity; try lia.
  rewrite IH; [reflexivity | lia].
Qed.

Lemma store_length (p p' : list F) (i : nat) (v : F) :
  store p i v = Some p' -> length p' = length p.
Proof.
  revert i p'. induction p as [|h t IH]; intros [|i] p' H; simpl in *;
    try discriminate.
  - now inversion H.
  - destruct (store t i v) as [t'|] eqn:E; [|discriminate].
    inversion H; subst. simpl. f_equal. eauto.
Qed.

Lemma store_same (p p' : list F) (i : nat) (v : F) :
  store p i v = Some p' -> nth_error p' i = Some v.
Proof.
  revert i p'. induction p as [|h t IH]; intros [|i] p' H; simpl in *;
    try discriminate.
  - now inversion H.
  - destruct (store t i v) as [t'|] eqn:E; [|discriminate].
    inversion H; subst. simpl. eauto.
Qed.

Lemma store_other (p p' : list F) (i j : nat) (v : F) :
  store p i v = Some p' -> j <> i -> nth_error p' j = nth_error p j.
Proof.
  revert i j p'. induction p as [|h t IH]; intros [|i] [|j] p' H Hne;
    simpl in *; try discriminate; try lia.
  - now inversion H.
  - destruct (store t i v) as [t'|]; [|discriminate]. now inversion H.
  - destruct (store t i v) as [t'|] eqn:E; [|discriminate].
    inversion H; subst. simpl. eapply IH; eauto.
Qed.

Lemma load_in_range (p : list F) (i : nat) (d : F) :
  i < length p -> load p i = Some (nth i p d).
Proof. intros Hi. unfold load. now apply nth_error_nth'. Qed.

Lemma nth_error_some_nth (p : list F) (i : nat) (v d : F) :
  nth_error p i = Some v -> nth i p d = v.
Proof. intros H. now apply nth_error_nth. Qed.

Lemma load_offset_ptr (p : list F) (offset i : nat) :
  load (offset_ptr p offset) i = load p (offset + i).
Proof. unfold load, offset_ptr. apply nth_error_skipn. Qed.

(** Two buffers of the same length with the same elements are equal. *)
Lemma buffer_ext (p q : list F) :
  length p = length q ->
  (forall i, i < length p -> nth_error p i = nth_error q i) ->
  p = q.
Proof.
  revert q. induction p as [|h t IH]; intros [|h' t'] Hlen Hnth;
    simpl in *; try discriminate; [reflexivity|].
  f_equal.
  - specialize (Hnth 0 ltac:(lia)). simpl in Hnth. now inversion Hnth.
  - apply IH; [lia|]. intros i Hi. apply (Hnth (S i)). lia.
Qed.

End Buffers.

Section Sums.

Context {F : Type} {ops : FloatOps F}.

Lemma f_sum_snoc (init : F) (term : nat -> F) (n : nat) :
  f_sum init (map term (seq 0 (S n))) =
  f_add (f_sum init (map term (seq 0 n))) (term n).
Proof.
  unfold f_sum. rewrite seq_S, map_app, fold_left_app. reflexivity.
Qed.

Lemma nth_error_map_seq {B} (g : nat -> B) (n i : nat) :
  i < n -> nth_error (map g (seq 0 n)) i = Some (g i).
Proof.
  intros Hi. rewrite nth_error_map, nth_error_seq.
  destruct (Nat.ltb_spec i n); [reflexivity | lia].
Qed.

End Sums.

(** ** The member functions of [Layer] against their closed forms *)

Lemma row_index_bound (n_in n_out o i : nat) :
  o < n_out -> i < n_in -> n_in * o + i < n_in * n_out.
Proof.
  intros Ho Hi.
  assert (n_in * (o + 1) <= n_in * n_out) by (apply Nat.mul_le_mono_l; lia).
  lia.
Qed.

Lemma row_index_inj (n_in o i o' i' : nat) :
  i < n_in -> i' < n_in -> n_in * o + i = n_in * o' + i' -> o = o' /\ i = i'.
Proof.
  intros Hi Hi' H.
  assert (o = o') as ->.
  { destruct (Nat.lt_trichotomy o o') as [Hlt|[Heq|Hgt]]; [exfalso|exact Heq|exfalso].
    - assert (n_in * (o + 1) <= n_in * o') by (apply Nat.mul_le_mono_l; lia). lia.
    - assert (n_in * (o' + 1) <= n_in * o) by (apply Nat.mul_le_mono_l; lia). lia. }
  split; [reflexivity | lia].
Qed.

Section LayerProofs.

Context {F : Type} {ops : FloatOps F} {libm : FloatExp F}.

Lemma read_bias_ok (L : Layer F) (o : nat) :
  o < length (m_pBiases L) -> read_bias o L = Some (b_at L o, L).
Proof.
  intros Ho. unfold read_bias. rewrite bind_gets.
  unfold lift. now rewrite (load_in_range _ _ f_zero Ho).
Qed.

Lemma read_weight_ok (L : Layer F) (j : nat) :
  j < length (m_pWeights L) ->
  read_weight j L = Some (at_index (m_pWeights L) j, L).
Proof.
  intros Hj. unfold read_weight. rewrite bind_gets.
  unfold lift. now rewrite (load_in_range _ _ f_zero Hj).
Qed.

Lemma write_weight_ok (L : Layer F) (j : nat) (v : F) :
  j < length (m_pWeights L) ->
  exists w', store (m_pWeights L) j v = Some w' /\
             write_weight j v L = Some (tt, set_weights w' L).
Proof.
  intros Hj. destruct (store_Some _ _ v Hj) as (w' & Hw).
  exists w'. split; [exact Hw|].
  unfold write_weight. rewrite bind_gets. lift_step Hw. reflexivity.
Qed.

Lemma write_bias_ok (L : Layer F) (o : nat) (v : F) :
  o < length (m_pBiases L) ->
  exists b', store (m_pBiases L) o v = Some b' /\
             write_bias o v L = Some (tt, set_biases b' L).
Proof.
  intros Ho. destruct (store_Some _ _ v Ho) as (b' & Hb).
  exists b'. split; [exact Hb|].
  unfold write_bias. rewrite bind_gets. lift_step Hb. reflexivity.
Qed.

(** The inner loop of [propagate] for output unit [o]. *)
Lemma propagate_row (L : Layer F) (pInputs : list F) (o : nat) (init : F) :
  Layer_wf L -> m_inputCount L <= length pInputs -> o < m_outputCount L ->
  for_loop 0 (m_inputCount L)
    (fun i fActivation =>
       x <- lift (load pInputs i) ;;
       w <- read_weight (m_inputCount L * o + i) ;;
       ret (f_add fActivation (f_mul x w)))
    init L
  = Some (f_sum init
            (map (fun i => f_mul (at_index pInputs i) (W_at L o i))
                 (seq 0 (m_inputCount L))), L).
Proof.
  intros [HW Hb] Hin Ho.
  match goal with |- for_loop _ _ ?body _ _ = _ =>
    destruct (for_loop_inv
      (fun i acc s =>
         s = L /\
         acc = f_sum init
                 (map (fun i => f_mul (at_index pInputs i) (W_at L o i)) (seq 0 i)))
      body (m_inputCount L) 0 init L)
      as (acc & s & Hloop & -> & ->)
  end; [ | | rewrite Hloop; reflexivity ].
  - split; reflexivity.
  - intros i acc s Hi [-> ->].
    assert (Hx : i < length pInputs) by lia.
    lift_step (load_in_range pInputs i f_zero Hx).
    assert (Hj : m_inputCount L * o + i < length (m_pWeights L))
      by (rewrite HW; apply row_index_bound; lia).
    bind_step (read_weight_ok L _ Hj).
    eexists _, _. split; [reflexivity|]. split; [reflexivity|].
    rewrite f_sum_snoc. unfold W_at.
    now rewrite (Nat.mul_comm o (m_inputCount L)).
Qed.

Lemma propagate_correct (L : Layer F) (pInputs pOutputs : list F) :
  Layer_wf L ->
  m_inputCount L <= length pInputs ->
  m_outputCount L <= length pOutputs ->
  exists pOutputs',
    propagate pInputs pOutputs L = Some (pOutputs', L) /\
    length pOutputs' = length pOutputs /\
    (forall o, o < m_outputCount L ->
       nth_error pOutputs' o = Some (transfer (weighted_sum L pInputs o))) /\
    (forall o, m_outputCount L <= o ->
       nth_error pOutputs' o = nth_error pOutputs o).
Proof.
  intros Hwf Hin Hout. pose proof Hwf as [HW Hb].
  unfold propagate. rewrite bind_gets.
  match goal with |- context [for_loop _ _ ?body _ _] =>
    destruct (for_loop_inv
      (fun o outs s =>
         s = L /\ length outs = length pOutputs /\
         (forall k, k < o ->
            nth_error outs k = Some (transfer (weighted_sum L pInputs k))) /\
         (forall k, o <= k -> nth_error outs k = nth_error pOutputs k))
      body (m_outputCount L) 0 pOutputs L)
      as (outs & s & Hloop & -> & Hlen & Hlo & Hhi)
  end.
  - repeat split; intros; lia.
  - intros o outs s Ho (-> & Hlen & Hlo & Hhi).
    rewrite bind_gets.
    assert (Hob : o < length (m_pBiases L)) by lia.
    bind_step (read_bias_ok L o Hob).
    assert (Ho' : o < m_outputCount L) by lia.
    bind_step (propagate_row L pInputs o (b_at L o) Hwf Hin Ho').
    assert (Hoo : o < length outs) by lia.
    destruct (store_Some outs o (transfer (weighted_sum L pInputs o)) Hoo)
      as (outs' & Hst).
    exists outs', L. split.
    + unfold lift, weighted_sum in *. now rewrite Hst.
    + split; [reflexivity|]. split; [|split].
      * rewrite (store_length _ _ _ _ Hst). exact Hlen.
      * intros k Hk. destruct (Nat.eq_dec k o) as [->|Hne].
        -- exact (store_same _ _ _ _ Hst).
        -- rewrite (store_other _ _ _ _ _ Hst Hne). apply Hlo. lia.
      * intros k Hk.
        assert (Hne : k <> o) by lia.
        rewrite (store_other _ _ _ _ _ Hst Hne). apply Hhi. lia.
  - exists outs. split; [exact Hloop|]. split; [exact Hlen|].
    split; [exact Hlo | exact Hhi].
Qed.

End LayerProofs.

Section DeltaProofs.

Context {F : Type} {ops : FloatOps F} {libm : FloatExp F}.

Lemma computeOutputDeltas_correct (L : Layer F)
  (pOutputValues pExpectedValues pDeltas : list F) :
  m_outputCount L <= length pOutputValues ->
  m_outputCount L <= length pExpectedValues ->
  m_outputCount L <= length pDeltas ->
  exists pDeltas',
    computeOutputDeltas pOutputValues pExpectedValues pDeltas L
    = Some ((spec_squaredError (m_outputCount L) pOutputValues pExpectedValues,
             pDeltas'), L) /\
    length pDeltas' = length pDeltas /\
    (forall o, o < m_outputCount L ->
       nth_error pDeltas' o
       = Some (f_mul (output_error pOutputValues pExpectedValues o)
                     (transferDerivative (at_index pOutputValues o)))) /\
    (forall o, m_outputCount L <= o ->
       nth_error pDeltas' o = nth_error pDeltas o).
Proof.
  intros Hov Hev Hd.
  unfold computeOutputDeltas. rewrite bind_gets.
  match goal with |- context [for_loop _ _ ?body _ _] =>
    destruct (for_loop_inv
      (fun o (acc : F * list F) s =>
         s = L /\
         fst acc = f_sum f_zero
                     (map (fun o => f_mul (output_error pOutputValues pExpectedValues o)
                                          (output_error pOutputValues pExpectedValues o))
                          (seq 0 o)) /\
         length (snd acc) = length pDeltas /\
         (forall k, k < o ->
            nth_error (snd acc) k
            = Some (f_mul (output_error pOutputValues pExpectedValues k)
                          (transferDerivative (at_index pOutputValues k)))) /\
         (forall k, o <= k -> nth_error (snd acc) k = nth_error pDeltas k))
      body (m_outputCount L) 0 (f_zero, pDeltas) L)
      as ([tot ds] & s & Hloop & -> & Htot & Hlen & Hlo & Hhi)
  end.
  - repeat split; intros; lia.
  - intros o [tot ds] s Ho (-> & Htot & Hlen & Hlo & Hhi). cbn [fst snd] in *.
    assert (H1 : o < length pOutputValues) by lia.
    assert (H2 : o < length pExpectedValues) by lia.
    assert (H3 : o < length ds) by lia.
    lift_step (load_in_range pOutputValues o f_zero H1).
    lift_step (load_in_range pExpectedValues o f_zero H2).
    destruct (store_Some ds o
                (f_mul (output_error pOutputValues pExpectedValues o)
                       (transferDerivative (at_index pOutputValues o))) H3)
      as (ds' & Hst).
    unfold output_error, at_index in *.
    lift_step Hst.
    eexists (_, ds'), L. split; [reflexivity|]. cbn [fst snd].
    split; [reflexivity|]. split; [|split; [|split]].
    + rewrite f_sum_snoc. now rewrite Htot.
    + rewrite (store_length _ _ _ _ Hst). exact Hlen.
    + intros k Hk. destruct (Nat.eq_dec k o) as [->|Hne].
      * exact (store_same _ _ _ _ Hst).
      * rewrite (store_other _ _ _ _ _ Hst Hne). apply Hlo. lia.
    + intros k Hk.
      assert (Hne : k <> o) by lia.
      rewrite (store_other _ _ _ _ _ Hst Hne). apply Hhi. lia.
  - cbn [fst snd] in *. exists ds. split.
    + rewrite Hloop. unfold spec_squaredError. now rewrite Htot.
    + split; [exact Hlen|]. split; [exact Hlo | exact Hhi].
Qed.

(** The inner loop of [computeDeltas] for unit [o] of this layer. *)
Lemma computeDeltas_row (L pNextLayer : Layer F) (pNextDeltas : list F) (o : nat) :
  Layer_wf pNextLayer ->
  m_inputCount pNextLayer = m_outputCount L ->
  m_outputCount pNextLayer <= length pNextDeltas ->
  o < m_outputCount L ->
  for_loop 0 (m_outputCount pNextLayer)
    (fun i fError =>
       d <- lift (load pNextDeltas i) ;;
       w <- lift (load (m_pWeights pNextLayer) (m_outputCount L * i + o)) ;;
       ret (f_add fError (f_mul d w)))
    f_zero L
  = Some (backpropagated_error pNextLayer pNextDeltas o, L).
Proof.
  intros [HW Hb] Hdim Hnd Ho.
  match goal with |- for_loop _ _ ?body _ _ = _ =>
    destruct (for_loop_inv
      (fun i acc s =>
         s = L /\
         acc = f_sum f_zero
                 (map (fun k => f_mul (at_index pNextDeltas k) (W_at pNextLayer k o))
                      (seq 0 i)))
      body (m_outputCount pNextLayer) 0 f_zero L)
      as (acc & s & Hloop & -> & ->)
  end; [ | | rewrite Hloop; reflexivity ].
  - split; reflexivity.
  - intros i acc s Hi [-> ->].
    assert (Hx : i < length pNextDeltas) by lia.
    lift_step (load_in_range pNextDeltas i f_zero Hx).
    assert (Hj : m_outputCount L * i + o < length (m_pWeights pNextLayer))
      by (rewrite HW, <- Hdim; apply row_index_bound; lia).
    lift_step (load_in_range (m_pWeights pNextLayer) _ f_zero Hj).
    eexists _, _. split; [reflexivity|]. split; [reflexivity|].
    rewrite f_sum_snoc. unfold W_at, at_index.
    now rewrite Hdim, (Nat.mul_comm i (m_outputCount L)).
Qed.

Lemma computeDeltas_correct (L pNextLayer : Layer F)
  (pNextDeltas pValues pDeltas : list F) :
  Layer_wf pNextLayer ->
  m_inputCount pNextLayer = m_outputCount L ->
  m_outputCount pNextLayer <= length pNextDeltas ->
  m_outputCount L <= length pValues ->
  m_outputCount L <= length pDeltas ->
  exists pDeltas',
    computeDeltas pNextLayer pNextDeltas pValues pDeltas L = Some (pDeltas', L) /\
    length pDeltas' = length pDeltas /\
    (forall o, o < m_outputCount L ->
       nth_error pDeltas' o
       = Some (f_mul (backpropagated_error pNextLayer pNextDeltas o)
                     (transferDerivative (at_index pValues o)))) /\
    (forall o, m_outputCount L <= o ->
       nth_error pDeltas' o = nth_error pDeltas o).
Proof.
  intros Hwf Hdim Hnd Hv Hd.
  unfold computeDeltas. rewrite bind_gets.
  match goal with |- context [for_loop _ _ ?body _ _] =>
    destruct (for_loop_inv
      (fun o ds s =>
         s = L /\ length ds = length pDeltas /\
         (forall k, k < o ->
            nth_error ds k
            = Some (f_mul (backpropagated_error pNextLayer pNextDeltas k)
                          (transferDerivative (at_index pValues k)))) /\
         (forall k, o <= k -> nth_error ds k = nth_error pDeltas k))
      body (m_outputCount L) 0 pDeltas L)
      as (ds & s & Hloop & -> & Hlen & Hlo & Hhi)
  end.
  - repeat split; intros; lia.
  - intros o ds s Ho (-> & Hlen & Hlo & Hhi).
    assert (Ho' : o < m_outputCount L) by lia.
    bind_step (computeDeltas_row L pNextLayer pNextDeltas o Hwf Hdim Hnd Ho').
    assert (H1 : o < length pValues) by lia.
    assert (H2 : o < length ds) by lia.
    lift_step (load_in_range pValues o f_zero H1).
    destruct (store_Some ds o
                (f_mul (backpropagated_error pNextLayer pNextDeltas o)
                       (transferDerivative (at_index pValues o))) H2)
      as (ds' & Hst).
    exists ds', L. split.
    + unfold lift, at_index in *. now rewrite Hst.
    + split; [reflexivity|]. split; [|split].
      * rewrite (store_length _ _ _ _ Hst). exact Hlen.
      * intros k Hk. destruct (Nat.eq_dec k o) as [->|Hne].
        -- exact (store_same _ _ _ _ Hst).
        -- rewrite (store_other _ _ _ _ _ Hst Hne). apply Hlo. lia.
      * intros k Hk.
        assert (Hne : k <> o) by lia.
        rewrite (store_other _ _ _ _ _ Hst Hne). apply Hhi. lia.
  - exists ds. split; [exact Hloop|]. split; [exact Hlen|].
    split; [exact Hlo | exact Hhi].
Qed.

End DeltaProofs.

Section UpdateProofs.

Context {F : Type} {ops : FloatOps F} {libm : FloatExp F}.

Variable L : Layer F.
Variables pInputs pDeltas : list F.
Variable fLearningRate : F.

Hypothesis Hwf : Layer_wf L.
Hypothesis Hin : m_inputCount L <= length pInputs.
Hypothesis Hd : m_outputCount L <= length pDeltas.

Let new_weight (j : nat) : F :=
  f_add (at_index (m_pWeights L) j)
        (f_mul (f_mul fLearningRate (at_index pDeltas (j / m_inputCount L)))
               (at_index pInputs (j mod m_inputCount L))).

Let new_bias (o : nat) : F :=
  f_add (b_at L o) (f_mul fLearningRate (at_index pDeltas o)).

(** The state of the layer when the weights before linear position [pos]
    and the biases before [ob] have been updated. *)
Let updated_upto (pos ob : nat) (s : Layer F) : Prop :=
  m_inputCount s = m_inputCount L /\
  m_outputCount s = m_outputCount L /\
  length (m_pWeights s) = length (m_pWeights L) /\
  length (m_pBiases s) = length (m_pBiases L) /\
  (forall j, j < length (m_pWeights L) ->
     nth_error (m_pWeights s) j
     = Some (if j <? pos then new_weight j else at_index (m_pWeights L) j)) /\
  (forall k, k < m_outputCount L ->
     nth_error (m_pBiases s) k
     = Some (if k <? ob then new_bias k else b_at L k)).

Lemma updateWeights_row (o : nat) (s : Layer F) :
  o < m_outputCount L ->
  updated_upto (m_inputCount L * o) o s ->
  exists s',
    for_loop 0 (m_inputCount L)
      (fun i _ =>
         w <- read_weight (m_inputCount L * o + i) ;;
         x <- lift (load pInputs i) ;;
         write_weight (m_inputCount L * o + i)
           (f_add w (f_mul (f_mul (at_index pDeltas o) fLearningRate) x)))
      tt s
    = Some (tt, s') /\
    updated_upto (m_inputCount L * o + m_inputCount L) o s'.
Proof.
  intros Ho Hs. destruct Hwf as [HW Hb].
  match goal with |- context [for_loop _ _ ?body _ _] =>
    destruct (for_loop_inv
      (fun i (_ : unit) s => updated_upto (m_inputCount L * o + i) o s)
      body (m_inputCount L) 0 tt s)
      as ([] & s' & Hloop & Hs')
  end.
  - now rewrite Nat.add_0_r.
  - intros i [] s0 Hi (Hni & Hno & HlW & Hlb & HWs & Hbs).
    set (j := m_inputCount L * o + i).
    assert (Hj : j < length (m_pWeights L))
      by (rewrite HW; apply row_index_bound; lia).
    assert (Hj0 : j < length (m_pWeights s0)) by lia.
    bind_step (read_weight_ok s0 j Hj0).
    assert (Hx : i < length pInputs) by lia.
    lift_step (load_in_range pInputs i f_zero Hx).
    match goal with |- context [write_weight j ?v] =>
      destruct (write_weight_ok s0 j v Hj0) as (w' & Hst & Hw)
    end.
    eexists tt, _. split; [exact Hw|].
    assert (Hold : at_index (m_pWeights s0) j = at_index (m_pWeights L) j).
    { apply nth_error_some_nth. rewrite (HWs j Hj).
      destruct (Nat.ltb_spec j (m_inputCount L * o + i)); [unfold j in *; lia|].
      reflexivity. }
    assert (Hdiv : j / m_inputCount L = o).
    { unfold j. rewrite (Nat.mul_comm (m_inputCount L) o).
      rewrite Nat.div_add_l by lia. rewrite Nat.div_small by lia. lia. }
    assert (Hmod : j mod m_inputCount L = i).
    { unfold j.
      replace (m_inputCount L * o + i) with (i + o * m_inputCount L) by lia.
      rewrite Nat.Div0.mod_add. apply Nat.mod_small. lia. }
    unfold updated_upto, set_weights; cbn [m_inputCount m_outputCount m_pWeights m_pBiases].
    repeat split; try assumption.
    + rewrite (store_length _ _ _ _ Hst). exact HlW.
    + intros j' Hj'. destruct (Nat.eq_dec j' j) as [->|Hne].
      * rewrite (store_same _ _ _ _ Hst).
        destruct (Nat.ltb_spec j (m_inputCount L * o + S i));
          [|unfold j in *; lia].
        unfold new_weight. rewrite Hdiv, Hmod, Hold.
        now rewrite (f_mul_comm fLearningRate).
      * rewrite (store_other _ _ _ _ _ Hst Hne), (HWs j' Hj').
        destruct (Nat.ltb_spec j' (m_inputCount L * o + i)),
                 (Nat.ltb_spec j' (m_inputCount L * o + S i));
          try reflexivity; unfold j in *; lia.
  - exists s'. split; [exact Hloop | exact Hs'].
Qed.

Lemma updateWeights_correct :
  updateWeights pInputs pDeltas fLearningRate L
  = Some (tt, spec_updateWeights L pInputs pDeltas fLearningRate).
Proof.
  pose proof Hwf as [HW Hb].
  unfold updateWeights. rewrite bind_gets.
  match goal with |- context [for_loop _ _ ?body _ _] =>
    destruct (for_loop_inv
      (fun o (_ : unit) s => updated_upto (m_inputCount L * o) o s)
      body (m_outputCount L) 0 tt L)
      as ([] & s & Hloop & Hs)
  end.
  - unfold updated_upto. repeat split; try reflexivity.
    + intros j Hj. rewrite Nat.mul_0_r. cbn [Nat.ltb Nat.leb].
      now apply nth_error_nth'.
    + intros k Hk. cbn [Nat.ltb Nat.leb]. apply nth_error_nth'. lia.
  - intros o [] s Ho Hs.
    pose proof Hs as (Hni & Hno & HlW & Hlb & HWs & Hbs).
    rewrite bind_gets, Hni.
    assert (H1 : o < length pDeltas) by lia.
    lift_step (load_in_range pDeltas o f_zero H1).
    assert (Ho' : o < m_outputCount L) by lia.
    destruct (updateWeights_row o s Ho' Hs)
      as (s1 & Hrow & (Hni1 & Hno1 & HlW1 & Hlb1 & HWs1 & Hbs1)).
    unfold at_index in Hrow. bind_step Hrow.
    assert (Hob : o < length (m_pBiases s1)) by lia.
    bind_step (read_bias_ok s1 o Hob).
    match goal with |- context [write_bias o ?v] =>
      destruct (write_bias_ok s1 o v Hob) as (b' & Hst & Hw)
    end.
    eexists tt, _. split; [exact Hw|].
    assert (Hold : b_at s1 o = b_at L o).
    { apply nth_error_some_nth. rewrite (Hbs1 o Ho').
      now rewrite Nat.ltb_irrefl. }
    unfold updated_upto, set_biases; cbn [m_inputCount m_outputCount m_pWeights m_pBiases].
    repeat split; try assumption.
    + rewrite (store_length _ _ _ _ Hst). exact Hlb1.
    + intros j Hj. rewrite (HWs1 j Hj).
      now replace (m_inputCount L * S o)
        with (m_inputCount L * o + m_inputCount L) by lia.
    + intros k Hk. destruct (Nat.eq_dec k o) as [->|Hne].
      * rewrite (store_same _ _ _ _ Hst).
        destruct (Nat.ltb_spec o (S o)); [|lia].
        unfold new_bias. rewrite Hold.
        now rewrite (f_mul_comm fLearningRate).
      * rewrite (store_other _ _ _ _ _ Hst Hne), (Hbs1 k Hk).
        destruct (Nat.ltb_spec k o), (Nat.ltb_spec k (S o));
          try reflexivity; lia.
  - rewrite Hloop. do 2 f_equal.
    destruct Hs as (Hni & Hno & HlW & Hlb & HWs & Hbs).
    destruct s as [ni no W b]. cbn [m_inputCount m_outputCount m_pWeights m_pBiases] in *.
    subst ni no. unfold spec_updateWeights. f_equal.
    + apply buffer_ext.
      * now rewrite length_map, length_seq, HlW.
      * intros j Hj. rewrite HlW in Hj. rewrite (HWs j Hj).
        rewrite HW in Hj. rewrite (nth_error_map_seq _ _ _ Hj).
        destruct (Nat.ltb_spec j (m_inputCount L * (0 + m_outputCount L)));
          [reflexivity | lia].
    + apply buffer_ext.
      * now rewrite length_map, length_seq, Hlb.
      * intros k Hk. rewrite Hlb, Hb in Hk. rewrite (Hbs k Hk).
        rewrite (nth_error_map_seq _ _ _ Hk).
        destruct (Nat.ltb_spec k (0 + m_outputCount L)); [reflexivity | lia].
Qed.

End UpdateProofs.

(** ** Closed forms for buffers of exactly the layer's width *)

Section ClosedProofs.

Context {F : Type} {ops : FloatOps F} {libm : FloatExp F}.

Lemma at_index_map_seq (g : nat -> F) (n i : nat) :
  i < n -> at_index (map g (seq 0 n)) i = g i.
Proof.
  intros Hi. unfold at_index. apply nth_error_some_nth.
  now rewrite nth_error_map_seq.
Qed.

Lemma propagate_closed (L : Layer F) (pInputs pOutputs : list F) :
  Layer_wf L ->
  m_inputCount L <= length pInputs ->
  length pOutputs = m_outputCount L ->
  propagate pInputs pOutputs L = Some (spec_propagate L pInputs, L).
Proof.
  intros Hwf Hin Hout.
  destruct (propagate_correct L pInputs pOutputs Hwf Hin ltac:(lia))
    as (outs & Hrun & Hlen & Hlo & _).
  rewrite Hrun. do 2 f_equal. apply buffer_ext.
  - unfold spec_propagate. rewrite length_map, length_seq. lia.
  - intros o Ho. rewrite Hlo by lia. unfold spec_propagate.
    rewrite nth_error_map_seq by lia. reflexivity.
Qed.

Lemma computeOutputDeltas_closed (L : Layer F)
  (pOutputValues pExpectedValues pDeltas : list F) :
  m_outputCount L <= length pOutputValues ->
  m_outputCount L <= length pExpectedValues ->
  length pDeltas = m_outputCount L ->
  computeOutputDeltas pOutputValues pExpectedValues pDeltas L
  = Some ((spec_squaredError (m_outputCount L) pOutputValues pExpectedValues,
           spec_outputDeltas (m_outputCount L) pOutputValues pExpectedValues), L).
Proof.
  intros Hov Hev Hd.
  destruct (computeOutputDeltas_correct L pOutputValues pExpectedValues pDeltas
              Hov Hev ltac:(lia)) as (ds & Hrun & Hlen & Hlo & _).
  rewrite Hrun. do 3 f_equal. apply buffer_ext.
  - unfold spec_outputDeltas. rewrite length_map, length_seq. lia.
  - intros o Ho. rewrite Hlo by lia. unfold spec_outputDeltas.
    rewrite nth_error_map_seq by lia. reflexivity.
Qed.

Lemma computeDeltas_closed (L pNextLayer : Layer F)
  (pNextDeltas pValues pDeltas : list F) :
  Layer_wf pNextLayer ->
  m_inputCount pNextLayer = m_outputCount L ->
  m_outputCount pNextLayer <= length pNextDeltas ->
  m_outputCount L <= length pValues ->
  length pDeltas = m_outputCount L ->
  computeDeltas pNextLayer pNextDeltas pValues pDeltas L
  = Some (spec_deltas L pNextLayer pNextDeltas pValues, L).
Proof.
  intros Hwf Hdim Hnd Hv Hd.
  destruct (computeDeltas_correct L pNextLayer pNextDeltas pValues pDeltas
              Hwf Hdim Hnd Hv ltac:(lia)) as (ds & Hrun & Hlen & Hlo & _).
  rewrite Hrun. do 2 f_equal. apply buffer_ext.
  - unfold spec_deltas. rewrite length_map, length_seq. lia.
  - intros o Ho. rewrite Hlo by lia. unfold spec_deltas.
    rewrite nth_error_map_seq by lia. reflexivity.
Qed.

Lemma spec_updateWeights_wf (L : Layer F) (inputs deltas : list F) (lr : F) :
  Layer_wf (spec_updateWeights L inputs deltas lr).
Proof.
  unfold Layer_wf, spec_updateWeights. cbn.
  now rewrite !length_map, !length_seq.
Qed.

Lemma spec_propagate_length (L : Layer F) (inputs : list F) :
  length (spec_propagate L inputs) = m_outputCount L.
Proof. unfold spec_propagate. now rewrite length_map, length_seq. Qed.

Lemma spec_outputDeltas_length (n : nat) (outs exps : list F) :
  length (spec_outputDeltas n outs exps) = n.
Proof. unfold spec_outputDeltas. now rewrite length_map, length_seq. Qed.

Lemma spec_deltas_length (L next : Layer F) (nd vals : list F) :
  length (spec_deltas L next nd vals) = m_outputCount L.
Proof. unfold spec_deltas. now rewrite length_map, length_seq. Qed.


Lemma slice_agrees (buffer : list F) (width t : nat) :
  agree_upto width (offset_ptr buffer (t * width)) (slice buffer width t).
Proof.
  intros i Hi. unfold at_index, slice, offset_ptr.
  now rewrite nth_firstn, (proj2 (Nat.ltb_lt i width) Hi).
Qed.

Lemma slice_length (buffer : list F) (width t n : nat) :
  length buffer = n * width -> t < n ->
  width <= length (offset_ptr buffer (t * width)).
Proof.
  intros Hlen Ht. unfold offset_ptr. rewrite length_skipn, Hlen.
  assert ((t + 1) * width <= n * width) by (apply Nat.mul_le_mono_r; lia).
  lia.
Qed.

Lemma spec_propagate_agree (L : Layer F) (p q : list F) :
  agree_upto (m_inputCount L) p q -> spec_propagate L p = spec_propagate L q.
Proof.
  intros H. unfold spec_propagate, weighted_sum.
  apply map_ext_in. intros o _. do 2 f_equal.
  apply map_ext_in. intros i Hi. apply in_seq in Hi.
  rewrite H by lia. reflexivity.
Qed.

Lemma spec_outputDeltas_agree (n : nat) (outs p q : list F) :
  agree_upto n p q -> spec_outputDeltas n outs p = spec_outputDeltas n outs q.
Proof.
  intros H. unfold spec_outputDeltas, output_error.
  apply map_ext_in. intros o Ho. apply in_seq in Ho.
  rewrite H by lia. reflexivity.
Qed.

Lemma spec_squaredError_agree (n : nat) (outs p q : list F) :
  agree_upto n p q -> spec_squaredError n outs p = spec_squaredError n outs q.
Proof.
  intros H. unfold spec_squaredError, output_error. f_equal.
  apply map_ext_in. intros o Ho. apply in_seq in Ho.
  rewrite H by lia. reflexivity.
Qed.

Lemma spec_updateWeights_agree (L : Layer F) (p q deltas : list F) (lr : F) :
  agree_upto (m_inputCount L) p q ->
  spec_updateWeights L p deltas lr = spec_updateWeights L q deltas lr.
Proof.
  intros H. unfold spec_updateWeights. f_equal.
  apply map_ext_in. intros j Hj. apply in_seq in Hj.
  destruct (Nat.eq_dec (m_inputCount L) 0) as [E|E]; [rewrite E in Hj; lia|].
  rewrite H; [reflexivity|]. now apply Nat.mod_upper_bound.
Qed.

End ClosedProofs.

(** ** Training against its closed form *)

Section TrainProofs.

Context {F : Type} {ops : FloatOps F} {libm : FloatExp F}.


Lemma NeuralNet_wf_shape (net : NeuralNet F) :
  NeuralNet_wf net ->
  net_shape (m_inputCount (m_hiddenLayer net)) (m_outputCount (m_hiddenLayer net))
            (m_outputCount (m_outputLayer net)) net.
Proof.
  intros (H1 & H2 & H3). unfold net_shape.
  split; [exact H1|]. split; [exact H2|]. repeat split; auto.
Qed.

Lemma on_hidden_Some {A} (m : M (Layer F) A) (net : NeuralNet F) a l :
  m (m_hiddenLayer net) = Some (a, l) ->
  on_hidden m net = Some (a, mkNeuralNet l (m_outputLayer net)).
Proof. unfold on_hidden. now intros ->. Qed.

Lemma on_output_Some {A} (m : M (Layer F) A) (net : NeuralNet F) a l :
  m (m_outputLayer net) = Some (a, l) ->
  on_output m net = Some (a, mkNeuralNet (m_hiddenLayer net) l).
Proof. unfold on_output. now intros ->. Qed.

Lemma spec_train_example_shape (n_in n_hid n_out : nat) (lr : F)
  (net : NeuralNet F) (example : list F * list F) :
  net_shape n_in n_hid n_out net ->
  net_shape n_in n_hid n_out (spec_train_example lr net example).
Proof.
  intros (H1 & H2 & H3 & H4 & H5 & H6). destruct example as [x e].
  unfold net_shape, spec_train_example.
  cbn [m_hiddenLayer m_outputLayer].
  split; [apply spec_updateWeights_wf|].
  split; [apply spec_updateWeights_wf|].
  cbn. auto.
Qed.

Section OneCall.

Variables pAllInputs pAllExpectedOutputs : list F.
Variables n_in n_hid n_out testCount : nat.
Variable fLearningRate : F.

Hypothesis Hinputs : length pAllInputs = testCount * n_in.
Hypothesis Hexpected : length pAllExpectedOutputs = testCount * n_out.

Let example (t : nat) : list F * list F :=
  (slice pAllInputs n_in t, slice pAllExpectedOutputs n_out t).

Lemma train_example_correct (test : nat) (total : F) (buf : Scratch F)
  (net : NeuralNet F) :
  net_shape n_in n_hid n_out net -> test < testCount ->
  scratch_fits n_hid n_out buf ->
  exists buf',
    train_example pAllInputs pAllExpectedOutputs n_in n_out fLearningRate
      test (total, buf) net
    = Some ((f_add total (spec_example_error net (example test)), buf'),
            spec_train_example fLearningRate net (example test)) /\
    scratch_fits n_hid n_out buf'.
Proof.
  intros (Hwh & Hwo & Hhi & Hho & Hoi & Hoo) Ht (B1 & B2 & B3 & B4).
  destruct net as [h o]. cbn [m_hiddenLayer m_outputLayer] in *.
  unfold train_example.
  set (pInputs := offset_ptr pAllInputs (test * n_in)).
  set (pExpected := offset_ptr pAllExpectedOutputs (test * n_out)).
  assert (Hpi : n_in <= length pInputs) by (eapply slice_length; eauto).
  assert (Hpe : n_out <= length pExpected) by (eapply slice_length; eauto).
  assert (Ain : agree_upto (m_inputCount h) pInputs (slice pAllInputs n_in test))
    by (rewrite Hhi; apply slice_agrees).
  assert (Aex : agree_upto (m_outputCount o) pExpected
                  (slice pAllExpectedOutputs n_out test))
    by (rewrite Hoo; apply slice_agrees).
  (* forward *)
  assert (P1 : propagate pInputs (pHiddenValues buf) h
               = Some (spec_propagate h pInputs, h))
    by (apply propagate_closed; [assumption | lia | lia]).
  bind_step (on_hidden_Some _ (mkNeuralNet h o) _ _ P1).
  cbn [m_hiddenLayer m_outputLayer].
  set (hv := spec_propagate h pInputs) in *.
  assert (Lhv : length hv = n_hid)
    by (unfold hv; rewrite spec_propagate_length; exact Hho).
  assert (P2 : propagate hv (pOutputValues buf) o = Some (spec_propagate o hv, o))
    by (apply propagate_closed; [assumption | lia | lia]).
  bind_step (on_output_Some _ (mkNeuralNet h o) _ _ P2).
  cbn [m_hiddenLayer m_outputLayer].
  set (ov := spec_propagate o hv) in *.
  assert (Lov : length ov = n_out)
    by (unfold ov; rewrite spec_propagate_length; exact Hoo).
  (* backward *)
  assert (P3 : computeOutputDeltas ov pExpected (pOutputDeltas buf) o
               = Some ((spec_squaredError (m_outputCount o) ov pExpected,
                        spec_outputDeltas (m_outputCount o) ov pExpected), o))
    by (apply computeOutputDeltas_closed; lia).
  bind_step (on_output_Some _ (mkNeuralNet h o) _ _ P3).
  cbv beta iota. cbn [m_hiddenLayer m_outputLayer].
  set (od := spec_outputDeltas (m_outputCount o) ov pExpected) in *.
  assert (Lod : length od = n_out)
    by (unfold od; rewrite spec_outputDeltas_length; exact Hoo).
  rewrite bind_gets. cbn [m_outputLayer].
  assert (P4 : computeDeltas o od hv (pHiddenDeltas buf) h
               = Some (spec_deltas h o od hv, h))
    by (apply computeDeltas_closed; [assumption | lia | lia | lia | lia]).
  bind_step (on_hidden_Some _ (mkNeuralNet h o) _ _ P4).
  cbn [m_hiddenLayer m_outputLayer].
  set (hd := spec_deltas h o od hv) in *.
  assert (Lhd : length hd = n_hid)
    by (unfold hd; rewrite spec_deltas_length; exact Hho).
  (* update *)
  assert (P5 : updateWeights hv od fLearningRate o
               = Some (tt, spec_updateWeights o hv od fLearningRate))
    by (apply updateWeights_correct; [assumption | lia | lia]).
  bind_step (on_output_Some _ (mkNeuralNet h o) _ _ P5).
  cbn [m_hiddenLayer m_outputLayer].
  assert (P6 : updateWeights pInputs hd fLearningRate h
               = Some (tt, spec_updateWeights h pInputs hd fLearningRate))
    by (apply updateWeights_correct; [assumption | lia | lia]).
  bind_step (on_hidden_Some _
               (mkNeuralNet h (spec_updateWeights o hv od fLearningRate)) _ _ P6).
  cbn [m_hiddenLayer m_outputLayer].
  exists (mkScratch hv hd ov od). split.
  - unfold ret, spec_example_error, spec_train_example, example.
    cbn [m_hiddenLayer m_outputLayer].
    rewrite <- (spec_propagate_agree h _ _ Ain).
    fold hv. fold ov.
    rewrite <- (spec_squaredError_agree _ ov _ _ Aex).
    rewrite <- (spec_outputDeltas_agree _ ov _ _ Aex).
    fold od. fold hd.
    rewrite <- (spec_updateWeights_agree h _ _ hd fLearningRate Ain).
    reflexivity.
  - unfold scratch_fits. cbn. now repeat split.
Qed.


Lemma examples_of_S (t : nat) :
  examples_of pAllInputs pAllExpectedOutputs n_in n_out (S t)
  = examples_of pAllInputs pAllExpectedOutputs n_in n_out t ++ [example t].
Proof.
  unfold examples_of. now rewrite seq_S, map_app.
Qed.

Lemma spec_epoch_shape (examples : list (list F * list F)) (net : NeuralNet F) :
  net_shape n_in n_hid n_out net ->
  net_shape n_in n_hid n_out (snd (spec_epoch fLearningRate examples net)).
Proof.
  unfold spec_epoch. generalize (@f_zero F ops). revert net.
  induction examples as [|ex rest IH]; intros net z Hnet; cbn [fold_left].
  - exact Hnet.
  - apply IH. now apply spec_train_example_shape.
Qed.

Lemma train_epoch_correct (epoch : Z) (buf : Scratch F)
  (printed : list (Z * F)) (net : NeuralNet F) :
  net_shape n_in n_hid n_out net ->
  scratch_fits n_hid n_out buf ->
  exists buf',
    train_epoch pAllInputs pAllExpectedOutputs n_in n_out testCount
      fLearningRate epoch (buf, printed) net
    = Some ((buf',
             printed ++
             [(epoch, fst (spec_epoch fLearningRate (examples_of pAllInputs pAllExpectedOutputs n_in n_out testCount) net))]),
            snd (spec_epoch fLearningRate (examples_of pAllInputs pAllExpectedOutputs n_in n_out testCount) net)) /\
    scratch_fits n_hid n_out buf'.
Proof.
  intros Hnet Hbuf. unfold train_epoch.
  match goal with |- context [for_loop _ _ ?body _] =>
    destruct (for_loop_inv
      (fun t (acc : F * Scratch F) s =>
         spec_epoch fLearningRate (examples_of pAllInputs pAllExpectedOutputs n_in n_out t) net = (fst acc, s) /\
         scratch_fits n_hid n_out (snd acc) /\
         net_shape n_in n_hid n_out s)
      body testCount 0 (f_zero, buf) net)
      as ([tot buf'] & s & Hloop & Hs & Hb' & Hshape)
  end.
  - split; [reflexivity|]. split; [exact Hbuf | exact Hnet].
  - intros t [tot b] s Ht (Hs & Hb & Hshape). cbn [fst snd] in *.
    destruct (train_example_correct t tot b s Hshape ltac:(lia) Hb)
      as (b' & Hrun & Hb').
    eexists (_, b'), _. split; [exact Hrun|]. cbn [fst snd].
    split; [|split].
    + rewrite examples_of_S. unfold spec_epoch in *.
      rewrite fold_left_app, Hs. reflexivity.
    + exact Hb'.
    + now apply spec_train_example_shape.
  - cbn [fst snd] in *. rewrite Nat.add_0_l in Hs.
    bind_step Hloop. cbv beta iota.
    exists buf'. split; [|exact Hb'].
    unfold ret. now rewrite Hs.
Qed.

End OneCall.

End TrainProofs.

(** ** Random initialisation and construction *)

(** A product of [size_t] is the product itself as long as that fits. *)
Lemma size_t_mul_small (a b : nat) :
  (Z.of_nat a * Z.of_nat b <= SIZE_MAX)%Z -> size_t_mul a b = a * b.
Proof.
  intros Hfit. unfold size_t_mul.
  rewrite Z.mod_small by (unfold SIZE_MAX in *; lia).
  rewrite <- Nat2Z.inj_mul. apply Nat2Z.id.
Qed.

Lemma size_t_mul_zero (a b : nat) : a = 0 \/ b = 0 -> size_t_mul a b = 0.
Proof.
  intros Hzero. rewrite size_t_mul_small; unfold SIZE_MAX; destruct Hzero; subst; lia.
Qed.

(** Otherwise it is smaller. *)
Lemma size_t_mul_wraps (a b : nat) :
  (SIZE_MAX < Z.of_nat a * Z.of_nat b)%Z -> size_t_mul a b < a * b.
Proof.
  intros Hwrap. unfold size_t_mul.
  assert (Hmod : (0 <= (Z.of_nat a * Z.of_nat b) mod (SIZE_MAX + 1) < SIZE_MAX + 1)%Z)
    by (apply Z.mod_pos_bound; unfold SIZE_MAX; lia).
  apply Nat2Z.inj_lt. rewrite Z2Nat.id, Nat2Z.inj_mul by lia. lia.
Qed.

Section ConstructionProofs.

Context {F : Type} {ops : FloatOps F} {libm : FloatExp F}.

Variable RAND_MAX : Z.
Variable Rng : Type.
Variable rand_step : Rng -> Z * Rng.

Lemma store_app (done rest : list F) (x v : F) :
  store (done ++ x :: rest) (length done) v = Some (done ++ v :: rest).
Proof.
  induction done as [|h t IH]; cbn [length app store]; [reflexivity|].
  now rewrite IH.
Qed.

Lemma draws_length (n : nat) (s : Rng) :
  length (fst (draws rand_step n s)) = n.
Proof.
  revert s. induction n as [|n IH]; intros s; cbn [draws]; [reflexivity|].
  destruct (rand_step s) as [r s1]. specialize (IH s1).
  destruct (draws rand_step n s1) as [rs s2]. cbn in *. now rewrite IH.
Qed.


Lemma randomFloat_run (s : Rng) :
  randomFloat RAND_MAX rand_step s
  = Some (sample_to_float RAND_MAX (fst (rand_step s)), snd (rand_step s)).
Proof.
  unfold randomFloat, rand, bind, ret. now destruct (rand_step s).
Qed.

Lemma randomize_loop :
  forall (count : nat) (done rest : list F) (s : Rng),
    count <= length rest ->
    for_loop (length done) count
      (fun i pValues =>
         v <- randomFloat RAND_MAX rand_step ;;
         lift (store pValues i v))
      (done ++ rest) s
    = Some (done ++ map (sample_to_float RAND_MAX) (fst (draws rand_step count s))
                 ++ skipn count rest,
            snd (draws rand_step count s)).
Proof.
  induction count as [|count IH]; intros done rest s Hlen.
  - reflexivity.
  - destruct rest as [|x rest]; [cbn in Hlen; lia|].
    cbn [for_loop draws].
    destruct (rand_step s) as [r s1] eqn:Hr.
    assert (Hbody :
      (v <- randomFloat RAND_MAX rand_step ;;
       lift (store (done ++ x :: rest) (length done) v)) s
      = Some (done ++ sample_to_float RAND_MAX r :: rest, s1)).
    { bind_step (randomFloat_run s). rewrite Hr. cbn [fst snd].
      unfold lift. now rewrite store_app. }
    bind_step Hbody.
    replace (done ++ sample_to_float RAND_MAX r :: rest)
      with ((done ++ [sample_to_float RAND_MAX r]) ++ rest)
      by now rewrite <- app_assoc.
    replace (S (length done))
      with (length (done ++ [sample_to_float RAND_MAX r]))
      by (rewrite length_app; cbn; lia).
    rewrite IH by (cbn in Hlen; lia).
    destruct (draws rand_step count s1) as [rs s2].
    cbn [fst snd map skipn]. now rewrite <- app_assoc.
Qed.

Lemma randomize_correct (pValues : list F) (count : nat) (s : Rng) :
  count <= length pValues ->
  randomize RAND_MAX rand_step pValues count s
  = Some (map (sample_to_float RAND_MAX) (fst (draws rand_step count s))
            ++ skipn count pValues,
          snd (draws rand_step count s)).
Proof.
  intros Hlen. unfold randomize.
  exact (randomize_loop count [] pValues s Hlen).
Qed.

(** What the buffer held before does not matter. *)
Lemma randomize_overwrites (p q : list F) (count : nat) (s : Rng) :
  length p = count -> length q = count ->
  randomize RAND_MAX rand_step p count s = randomize RAND_MAX rand_step q count s.
Proof.
  intros Hp Hq. rewrite !randomize_correct by lia.
  rewrite !skipn_all2 by lia. reflexivity.
Qed.

Lemma Layer_new_correct (inputCount outputCount : nat) (s : Rng) :
  let weights := draws rand_step (size_t_mul inputCount outputCount) s in
  let biases := draws rand_step outputCount (snd weights) in
  Layer_new RAND_MAX rand_step inputCount outputCount s
  = Some (mkLayer inputCount outputCount
            (map (sample_to_float RAND_MAX) (fst weights))
            (map (sample_to_float RAND_MAX) (fst biases)),
          snd biases).
Proof.
  intros weights biases. unfold Layer_new.
  assert (Ha : forall n, length (alloc (F := F) n) = n)
    by (intros n; unfold alloc; apply repeat_length).
  unfold bind at 1. rewrite randomize_correct by (rewrite Ha; lia).
  unfold bind at 1. rewrite randomize_correct by (rewrite Ha; lia).
  rewrite !skipn_all2 by (rewrite Ha; lia).
  rewrite !app_nil_r. reflexivity.
Qed.

Lemma Layer_new_wf (inputCount outputCount : nat) (s : Rng) (L : Layer F) (s' : Rng) :
  (Z.of_nat inputCount * Z.of_nat outputCount <= SIZE_MAX)%Z ->
  Layer_new RAND_MAX rand_step inputCount outputCount s = Some (L, s') ->
  Layer_wf L /\ m_inputCount L = inputCount /\ m_outputCount L = outputCount.
Proof.
  intros Hfit. rewrite Layer_new_correct. intros H. inversion H; subst. clear H.
  unfold Layer_wf. cbn. rewrite !length_map, !draws_length.
  rewrite size_t_mul_small by exact Hfit. auto.
Qed.

End ConstructionProofs.

Section OverwriteProofs.

Context {F : Type} {ops : FloatOps F} {libm : FloatExp F}.

(** What the output buffer held before does not matter. *)
Lemma propagate_overwrites (L : Layer F) (pInputs p q : list F) :
  Layer_wf L -> m_inputCount L <= length pInputs ->
  length p = m_outputCount L -> length q = m_outputCount L ->
  propagate pInputs p L = propagate pInputs q L.
Proof.
  intros Hwf Hin Hp Hq. now rewrite !propagate_closed.
Qed.

End OverwriteProofs.


(** ** The layer operations *)

Section LayerClaims.

Context {F : Type} {ops : FloatOps F} {libm : FloatExp F}.

(** C6: for a layer (W, b) and an input vector of exactly n_in elements,
    [propagate] succeeds, writes
    [outputs[o] = transfer (b[o] + sum_i inputs[i] * W[o,i])] for every
    output unit [o] (the sum accumulated from [b[o]], left to right), leaves
    the rest of the output buffer alone, and leaves the layer (W, b and both
    widths) as it was.  Being a function of the layer and the inputs, the
    result is deterministic. *)
Theorem propagate_spec (L : Layer F) (inputs outputs : list F) :
  Layer_wf L ->
  length inputs = m_inputCount L ->
  m_outputCount L <= length outputs ->
  exists outputs',
    propagate inputs outputs L = Some (outputs', L) /\
    length outputs' = length outputs /\
    (forall o, o < m_outputCount L ->
       nth_error outputs' o
       = Some (transfer
                 (f_sum (b_at L o)
                    (map (fun i => f_mul (at_index inputs i) (W_at L o i))
                         (seq 0 (m_inputCount L)))))) /\
    (forall o, m_outputCount L <= o -> nth_error outputs' o = nth_error outputs o).
Proof.
  intros Hwf Hin Hout.
  apply propagate_correct; [exact Hwf | lia | exact Hout].
Qed.

(** C7: [updateWeights] succeeds and replaces [W[o,i]] by
    [W[o,i] + learningRate * deltas[o] * inputs[i]] and [b[o]] by
    [b[o] + learningRate * deltas[o]], in place; the widths and the sizes of
    [W] and [b] do not change, and nothing is returned. *)
Theorem updateWeights_spec (L : Layer F) (inputs deltas : list F) (learningRate : F) :
  Layer_wf L ->
  length inputs = m_inputCount L ->
  length deltas = m_outputCount L ->
  exists L',
    updateWeights inputs deltas learningRate L = Some (tt, L') /\
    m_inputCount L' = m_inputCount L /\
    m_outputCount L' = m_outputCount L /\
    Layer_wf L' /\
    (forall o i, o < m_outputCount L -> i < m_inputCount L ->
       nth_error (m_pWeights L') (o * m_inputCount L + i)
       = Some (f_add (W_at L o i)
                 (f_mul (f_mul learningRate (at_index deltas o)) (at_index inputs i)))) /\
    (forall o, o < m_outputCount L ->
       nth_error (m_pBiases L') o
       = Some (f_add (b_at L o) (f_mul learningRate (at_index deltas o)))).
Proof.
  intros Hwf Hin Hd.
  exists (spec_updateWeights L inputs deltas learningRate).
  split; [apply updateWeights_correct; [exact Hwf | lia | lia]|].
  split; [reflexivity|]. split; [reflexivity|].
  split; [apply spec_updateWeights_wf|]. split.
  - intros o i Ho Hi. unfold spec_updateWeights. cbn [m_pWeights].
    assert (Hj : o * m_inputCount L + i < m_inputCount L * m_outputCount L).
    { rewrite (Nat.mul_comm o). now apply row_index_bound. }
    rewrite nth_error_map_seq by exact Hj.
    rewrite Nat.div_add_l by lia. rewrite (Nat.div_small i) by lia.
    rewrite Nat.add_0_r.
    replace ((o * m_inputCount L + i) mod m_inputCount L) with i.
    + reflexivity.
    + rewrite Nat.add_comm, Nat.Div0.mod_add. symmetry. now apply Nat.mod_small.
  - intros o Ho. unfold spec_updateWeights. cbn [m_pBiases].
    now rewrite nth_error_map_seq.
Qed.

(** C5: [computeOutputDeltas] succeeds, writes
    [deltas[o] = (expected[o] - output[o]) * transferDerivative (output[o])]
    for every unit [o], and returns the sum over [o] of
    [(expected[o] - output[o])^2], accumulated from [0.0f] left to right.
    The layer is left as it was. *)
Theorem computeOutputDeltas_spec (L : Layer F)
  (outputValues expectedValues deltas : list F) :
  length outputValues = m_outputCount L ->
  length expectedValues = m_outputCount L ->
  m_outputCount L <= length deltas ->
  exists deltas',
    computeOutputDeltas outputValues expectedValues deltas L
    = Some ((f_sum f_zero
               (map (fun o =>
                       f_mul (f_sub (at_index expectedValues o) (at_index outputValues o))
                             (f_sub (at_index expectedValues o) (at_index outputValues o)))
                    (seq 0 (m_outputCount L))),
             deltas'), L) /\
    length deltas' = length deltas /\
    (forall o, o < m_outputCount L ->
       nth_error deltas' o
       = Some (f_mul (f_sub (at_index expectedValues o) (at_index outputValues o))
                     (transferDerivative (at_index outputValues o)))) /\
    (forall o, m_outputCount L <= o -> nth_error deltas' o = nth_error deltas o).
Proof.
  intros Hov Hev Hd.
  apply computeOutputDeltas_correct; lia.
Qed.

(** C2: for a layer [L] and a downstream layer [N] with [N.n_in = L.n_out],
    [computeDeltas] succeeds and writes, for every unit [o] of [L],
    [deltas[o] = (sum_k nextDeltas[k] * N.W[k,o]) * transferDerivative (values[o])],
    the sum accumulated from [0.0f] left to right and [N.W[k,o]] being element
    [o] of row [k] of [N]'s row-major weight matrix. *)
Theorem computeDeltas_spec (L N : Layer F) (nextDeltas thisLayerValues deltas : list F) :
  Layer_wf N ->
  m_inputCount N = m_outputCount L ->
  length nextDeltas = m_outputCount N ->
  length thisLayerValues = m_outputCount L ->
  m_outputCount L <= length deltas ->
  exists deltas',
    computeDeltas N nextDeltas thisLayerValues deltas L = Some (deltas', L) /\
    length deltas' = length deltas /\
    (forall o, o < m_outputCount L ->
       nth_error deltas' o
       = Some (f_mul
                 (f_sum f_zero
                    (map (fun k => f_mul (at_index nextDeltas k) (W_at N k o))
                         (seq 0 (m_outputCount N))))
                 (transferDerivative (at_index thisLayerValues o)))) /\
    (forall o, m_outputCount L <= o -> nth_error deltas' o = nth_error deltas o).
Proof.
  intros Hwf Hdim Hnd Hv Hd.
  apply computeDeltas_correct; [exact Hwf | exact Hdim | lia | lia | exact Hd].
Qed.

End LayerClaims.

Lemma propagate_spec_witness :
  exists outputs',
    propagate [1; 1]%R [0%R] Demo.layer = Some (outputs', Demo.layer) /\
    length outputs' = 1 /\
    (forall o, o < 1 ->
       nth_error outputs' o
       = Some (transfer
                 (f_sum (b_at Demo.layer o)
                    (map (fun i => f_mul (at_index [1; 1]%R i) (W_at Demo.layer o i))
                         (seq 0 2))))) /\
    (forall o, 1 <= o -> nth_error outputs' o = nth_error [0%R] o).
Proof.
  apply (propagate_spec Demo.layer [1; 1]%R [0%R]);
    [split; reflexivity | reflexivity | cbn; lia].
Defined.

Lemma updateWeights_spec_witness :
  exists L',
    updateWeights [1; 1]%R [1%R] 1%R Demo.layer = Some (tt, L') /\
    m_inputCount L' = 2 /\
    m_outputCount L' = 1 /\
    Layer_wf L' /\
    (forall o i, o < 1 -> i < 2 ->
       nth_error (m_pWeights L') (o * 2 + i)
       = Some (f_add (W_at Demo.layer o i)
                 (f_mul (f_mul 1%R (at_index [1%R] o)) (at_index [1; 1]%R i)))) /\
    (forall o, o < 1 ->
       nth_error (m_pBiases L') o
       = Some (f_add (b_at Demo.layer o) (f_mul 1%R (at_index [1%R] o)))).
Proof.
  apply (updateWeights_spec Demo.layer [1; 1]%R [1%R] 1%R);
    [split; reflexivity | reflexivity | reflexivity].
Defined.

Lemma computeOutputDeltas_spec_witness :
  exists deltas',
    computeOutputDeltas [1%R] [2%R] [0%R] Demo.layer
    = Some ((f_sum f_zero
               (map (fun o =>
                       f_mul (f_sub (at_index [2%R] o) (at_index [1%R] o))
                             (f_sub (at_index [2%R] o) (at_index [1%R] o)))
                    (seq 0 1)),
             deltas'), Demo.layer) /\
    length deltas' = 1 /\
    (forall o, o < 1 ->
       nth_error deltas' o
       = Some (f_mul (f_sub (at_index [2%R] o) (at_index [1%R] o))
                     (transferDerivative (at_index [1%R] o)))) /\
    (forall o, 1 <= o -> nth_error deltas' o = nth_error [0%R] o).
Proof.
  apply (computeOutputDeltas_spec Demo.layer [1%R] [2%R] [0%R]);
    [reflexivity | reflexivity | cbn; lia].
Defined.

Lemma computeDeltas_spec_witness :
  exists deltas',
    computeDeltas Demo.output [1%R] [1; 1]%R [0; 0]%R Demo.hidden
    = Some (deltas', Demo.hidden) /\
    length deltas' = 2 /\
    (forall o, o < 2 ->
       nth_error deltas' o
       = Some (f_mul
                 (f_sum f_zero
                    (map (fun k => f_mul (at_index [1%R] k) (W_at Demo.output k o))
                         (seq 0 1)))
                 (transferDerivative (at_index [1; 1]%R o)))) /\
    (forall o, 2 <= o -> nth_error deltas' o = nth_error [0; 0]%R o).
Proof.
  apply (computeDeltas_spec Demo.hidden Demo.output [1%R] [1; 1]%R [0; 0]%R);
    [split; reflexivity | reflexivity | reflexivity | reflexivity | cbn; lia].
Defined.

(** ** Construction with a zero width *)

Section ZeroWidthClaims.

Context {F : Type} {ops : FloatOps F} {libm : FloatExp F}.

Variable RAND_MAX : Z.
Variable Rng : Type.
Variable rand_step : Rng -> Z * Rng.

(** C10: a layer constructed with input width 0 and any output width
    propagates the empty input: the call succeeds and
    [outputs[o] = transfer (b[o])] for every output unit [o]. *)
Theorem propagate_zero_inputs (s : Rng) (n_out : nat) (outputs : list F) :
  n_out <= length outputs ->
  exists L s' outputs',
    Layer_new RAND_MAX rand_step 0 n_out s = Some (L, s') /\
    propagate [] outputs L = Some (outputs', L) /\
    (forall o, o < n_out ->
       exists b, nth_error (m_pBiases L) o = Some b /\
                 nth_error outputs' o = Some (transfer b)).
Proof.
  intros Hout.
  destruct (Layer_new RAND_MAX rand_step 0 n_out s) as [[L s']|] eqn:Hnew;
    [|rewrite Layer_new_correct in Hnew; discriminate].
  assert (Hfit : (Z.of_nat 0 * Z.of_nat n_out <= SIZE_MAX)%Z)
    by (unfold SIZE_MAX; lia).
  destruct (Layer_new_wf _ _ _ _ _ _ _ _ Hfit Hnew) as (Hwf & Hni & Hno).
  destruct (propagate_correct L [] outputs Hwf) as (outs & Hrun & _ & Hlo & _);
    [rewrite Hni; cbn; lia | lia |].
  exists L, s', outs. split; [reflexivity|]. split; [exact Hrun|].
  intros o Ho. exists (b_at L o). split.
  - apply nth_error_nth'. destruct Hwf as [_ Hb]. lia.
  - rewrite Hlo by lia. unfold weighted_sum. now rewrite Hni.
Qed.

(** C9, as the code has it: a layer with [n_in = 0] or [n_out = 0] is not
    rejected.  The constructor has no failure path: it returns a layer of
    those widths with an empty weight matrix and [n_out] biases. *)
Theorem Layer_new_accepts_zero_width (s : Rng) (n_in n_out : nat) :
  n_in = 0 \/ n_out = 0 ->
  exists L s',
    Layer_new RAND_MAX rand_step n_in n_out s = Some (L, s') /\
    m_inputCount L = n_in /\ m_outputCount L = n_out /\
    m_pWeights L = [] /\ length (m_pBiases L) = n_out.
Proof.
  intros Hzero. rewrite Layer_new_correct.
  eexists _, _. split; [reflexivity|]. cbn [m_inputCount m_outputCount m_pWeights m_pBiases].
  split; [reflexivity|]. split; [reflexivity|]. split.
  - rewrite size_t_mul_zero by exact Hzero. reflexivity.
  - now rewrite length_map, draws_length.
Qed.

End ZeroWidthClaims.

Lemma propagate_zero_inputs_witness :
  exists L s' outputs',
    Layer_new (F := R) Lcg.RAND_MAX Lcg.rand_step 0 2 1%Z = Some (L, s') /\
    propagate [] [0; 0]%R L = Some (outputs', L) /\
    (forall o, o < 2 ->
       exists b, nth_error (m_pBiases L) o = Some b /\
                 nth_error outputs' o = Some (transfer b)).
Proof.
  apply (propagate_zero_inputs (F := R) Lcg.RAND_MAX Z Lcg.rand_step 1%Z 2 [0; 0]%R).
  cbn. lia.
Defined.

Lemma Layer_new_accepts_zero_width_witness :
  exists L s',
    Layer_new (F := R) Lcg.RAND_MAX Lcg.rand_step 0 1 1%Z = Some (L, s') /\
    m_inputCount L = 0 /\ m_outputCount L = 1 /\
    m_pWeights L = [] /\ length (m_pBiases L) = 1.
Proof.
  apply (Layer_new_accepts_zero_width (F := R) Lcg.RAND_MAX Z Lcg.rand_step 1%Z 0 1).
  left. reflexivity.
Defined.

(** C9 as stated fails: with input width 0 (and likewise with output width
    0) the constructor returns a layer, and [propagate] runs on it. *)
Lemma Layer_new_zero_width_not_rejected :
  (exists L s' outputs',
     Layer_new (F := R) Lcg.RAND_MAX Lcg.rand_step 0 1 1%Z = Some (L, s') /\
     m_pWeights L = [] /\ length (m_pBiases L) = 1 /\
     propagate [] [0%R] L = Some (outputs', L)) /\
  (exists L s' outputs',
     Layer_new (F := R) Lcg.RAND_MAX Lcg.rand_step 3 0 1%Z = Some (L, s') /\
     m_pWeights L = [] /\ m_pBiases L = [] /\
     propagate [1; 1; 1]%R [] L = Some (outputs', L)).
Proof.
  split.
  - rewrite Layer_new_correct, size_t_mul_zero by now left.
    cbn [draws fst snd map].
    set (L := mkLayer 0 1 _ _).
    destruct (propagate_correct L [] [0%R]) as (outs & Hrun & _);
      [split; reflexivity | cbn; lia | cbn; lia |].
    exists L, (snd (Lcg.rand_step 1)), outs.
    repeat split; try reflexivity. exact Hrun.
  - rewrite Layer_new_correct, size_t_mul_zero by now right.
    cbn [draws fst snd map].
    eexists _, _, []. repeat split; reflexivity.
Qed.

(** ** Training *)

Section TrainClaims.

Context {F : Type} {ops : FloatOps F} {libm : FloatExp F}.

Lemma on_hidden_gets {A} (f : Layer F -> A) (h o : Layer F) :
  on_hidden (gets f) (mkNeuralNet h o) = Some (f h, mkNeuralNet h o).
Proof. reflexivity. Qed.

Lemma on_output_gets {A} (f : Layer F -> A) (h o : Layer F) :
  on_output (gets f) (mkNeuralNet h o) = Some (f o, mkNeuralNet h o).
Proof. reflexivity. Qed.

Lemma alloc_length (n : nat) : length (alloc (F := F) n) = n.
Proof. unfold alloc. apply repeat_length. Qed.


(** [evaluate] is the composition of the two layers and changes nothing. *)
Lemma evaluate_correct (net : NeuralNet F) (pInputs pOutputs : list F) :
  NeuralNet_wf net ->
  m_inputCount (m_hiddenLayer net) <= length pInputs ->
  length pOutputs = m_outputCount (m_outputLayer net) ->
  evaluate pInputs pOutputs net
  = Some (spec_propagate (m_outputLayer net)
            (spec_propagate (m_hiddenLayer net) pInputs), net).
Proof.
  intros (Hwh & Hwo & Hdim) Hin Hout. destruct net as [h o].
  cbn [m_hiddenLayer m_outputLayer] in *. unfold evaluate.
  bind_step (on_hidden_gets (@m_outputCount F) h o).
  assert (P1 : propagate pInputs (alloc (m_outputCount h)) h
               = Some (spec_propagate h pInputs, h))
    by (apply propagate_closed; [assumption | lia | apply alloc_length]).
  bind_step (on_hidden_Some _ (mkNeuralNet h o) _ _ P1).
  cbn [m_hiddenLayer m_outputLayer].
  assert (P2 : propagate (spec_propagate h pInputs) pOutputs o
               = Some (spec_propagate o (spec_propagate h pInputs), o)).
  { apply propagate_closed; [assumption | | assumption].
    rewrite spec_propagate_length. lia. }
  exact (on_output_Some _ (mkNeuralNet h o) _ _ P2).
Qed.


End TrainClaims.



(** ** The range of the initial parameters *)

Section ParameterRange.

Import Exact.

Open Scope R_scope.



Close Scope R_scope.

End ParameterRange.




(** In binary32 the picture is the same: [rand() = RAND_MAX] gives
    [u = 1.0f] and the parameter [0x3F666666], the binary32 number that the
    literal [0.9f] denotes.  With [RAND_MAX = 2^31 - 1], [float( RAND_MAX )]
    rounds to [2^31] and so do the 64 largest values of [rand()]. *)
Example B32_sample_at_RAND_MAX :
  f_div (B32.of_int 2147483647) (B32.of_int 2147483647) = B32.one /\
  f_div (B32.of_int 2147483584) (B32.of_int 2147483647) = B32.one /\
  sample_to_float (F := B32.float32) 2147483647 2147483647 = B32.lit_0_9 /\
  sample_to_float (F := B32.float32) 32767 32767 = B32.lit_0_9 /\
  sample_to_float (F := B32.float32) 2147483647 0 = B32.lit_0_5.
Proof. vm_compute. repeat split; reflexivity. Qed.

(** ** Updating with zero deltas, in binary32 *)

Module ZeroDeltas.

Import B32.


Lemma mul_finite_zero (a z : float32) :
  is_finite a = true -> is_zero z = true -> is_zero (mul a z) = true.
Proof.
  destruct a as [sa|sa| |sa ma ea], z as [sz|sz| |sz mz ez];
    cbn; intros; try discriminate; reflexivity.
Qed.

Lemma mul_zero_finite (z a : float32) :
  is_zero z = true -> is_finite a = true -> is_zero (mul z a) = true.
Proof.
  intros Hz Ha. rewrite mul_comm. now apply mul_finite_zero.
Qed.

Lemma add_zero_r (w z : float32) :
  is_zero z = true -> unchanged_or_zero_sign w (add w z).
Proof.
  unfold unchanged_or_zero_sign, nzero, pzero.
  destruct w as [[|]|sw| |sw mw ew], z as [[|]|sz| |sz mz ez];
    cbn; intros; try discriminate; auto.
Qed.

Lemma Forall_at_index (P : float32 -> Prop) (p : list float32) (i : nat) :
  Forall P p -> i < length p -> P (at_index p i).
Proof.
  intros H Hi. unfold at_index.
  rewrite Forall_forall in H. apply H. now apply nth_In.
Qed.

Lemma Forall2_map_seq (R : float32 -> float32 -> Prop) (g : nat -> float32) :
  forall (p : list float32) (first : nat),
    (forall j, j < length p -> R (at_index p j) (g (first + j))) ->
    Forall2 R p (map g (seq first (length p))).
Proof.
  induction p as [|h t IH]; intros first H; cbn [length seq map].
  - constructor.
  - constructor.
    + specialize (H 0 ltac:(cbn; lia)). now rewrite Nat.add_0_r in H.
    + apply IH. intros j Hj.
      specialize (H (S j) ltac:(cbn; lia)).
      now replace (S first + j) with (first + S j) by lia.
Qed.

(** C8, as binary32 arithmetic has it: with all-zero deltas, a finite
    learning rate and finite inputs, [updateWeights] succeeds and leaves
    every weight and every bias bit-identical, except that a weight or bias
    that is negative zero may become positive zero; the widths do not
    change. *)
Theorem updateWeights_zero_deltas (L : Layer float32)
  (inputs deltas : list float32) (learningRate : float32) :
  Layer_wf L ->
  length inputs = m_inputCount L ->
  length deltas = m_outputCount L ->
  Forall (fun d => is_zero d = true) deltas ->
  Forall (fun x => is_finite x = true) inputs ->
  is_finite learningRate = true ->
  exists L',
    updateWeights inputs deltas learningRate L = Some (tt, L') /\
    m_inputCount L' = m_inputCount L /\
    m_outputCount L' = m_outputCount L /\
    Forall2 unchanged_or_zero_sign (m_pWeights L) (m_pWeights L') /\
    Forall2 unchanged_or_zero_sign (m_pBiases L) (m_pBiases L').
Proof.
  intros Hwf Hin Hd Hzero Hfin Hlr.
  exists (spec_updateWeights L inputs deltas learningRate).
  split; [apply updateWeights_correct; [exact Hwf | lia | lia]|].
  split; [reflexivity|]. split; [reflexivity|].
  destruct Hwf as [HW Hb].
  unfold spec_updateWeights. cbn [m_pWeights m_pBiases]. split.
  - rewrite <- HW. apply Forall2_map_seq. intros j Hj. cbn [Nat.add].
    rewrite HW in Hj.
    assert (Hn : m_inputCount L <> 0) by (intros E; rewrite E in Hj; lia).
    apply add_zero_r. apply mul_zero_finite.
    + apply mul_finite_zero; [exact Hlr|].
      apply (Forall_at_index _ _ _ Hzero). rewrite Hd.
      apply Nat.Div0.div_lt_upper_bound. exact Hj.
    + apply (Forall_at_index _ _ _ Hfin). rewrite Hin.
      now apply Nat.mod_upper_bound.
  - rewrite <- Hb. apply Forall2_map_seq. intros o Ho. cbn [Nat.add].
    apply add_zero_r. apply mul_finite_zero; [exact Hlr|].
    apply (Forall_at_index _ _ _ Hzero). lia.
Qed.

(** When no weight and no bias is negative zero, nothing changes at all. *)
Lemma Forall2_unchanged (p q : list float32) :
  Forall2 unchanged_or_zero_sign p q ->
  Forall (fun w => w <> nzero) p -> q = p.
Proof.
  induction 1 as [|x y p q Hxy _ IH]; intros Hp; [reflexivity|].
  inversion Hp; subst. f_equal; [|now apply IH].
  destruct Hxy as [E|[E _]]; [exact E | contradiction].
Qed.

End ZeroDeltas.

Lemma updateWeights_zero_deltas_witness :
  exists L',
    updateWeights [B32.one] [B32.pzero] B32.lit_0_2 Demo32.layer = Some (tt, L') /\
    m_inputCount L' = 1 /\
    m_outputCount L' = 1 /\
    Forall2 B32.unchanged_or_zero_sign (m_pWeights Demo32.layer) (m_pWeights L') /\
    Forall2 B32.unchanged_or_zero_sign (m_pBiases Demo32.layer) (m_pBiases L').
Proof.
  apply (ZeroDeltas.updateWeights_zero_deltas Demo32.layer
           [B32.one] [B32.pzero] B32.lit_0_2).
  - split; reflexivity.
  - reflexivity.
  - reflexivity.
  - repeat constructor.
  - repeat constructor.
  - reflexivity.
Defined.

(** C8 as stated fails: with an infinite input the product [0 * inf] is a
    NaN and the weight becomes a NaN, although every delta is zero. *)
Lemma updateWeights_zero_deltas_infinite_input :
  updateWeights [B32.pinf] [B32.pzero] B32.lit_0_2 Demo32.layer
  = Some (tt, mkLayer 1 1 [S754_nan] [B32.lit_0_5]) /\
  m_pWeights Demo32.layer = [B32.lit_0_5] /\
  S754_nan <> B32.lit_0_5.
Proof.
  split; [vm_compute; reflexivity|]. split; [reflexivity | discriminate].
Qed.

(** Likewise with an infinite learning rate: weight and bias become NaN. *)
Lemma updateWeights_zero_deltas_infinite_rate :
  updateWeights [B32.one] [B32.pzero] B32.pinf Demo32.layer
  = Some (tt, mkLayer 1 1 [S754_nan] [S754_nan]).
Proof. vm_compute. reflexivity. Qed.

(** And a weight or bias that is negative zero loses its sign bit. *)
Lemma updateWeights_zero_deltas_negative_zero :
  updateWeights [B32.one] [B32.pzero] B32.lit_0_2
    (mkLayer 1 1 [B32.nzero] [B32.nzero])
  = Some (tt, mkLayer 1 1 [B32.pzero] [B32.pzero]) /\
  B32.pzero <> B32.nzero.
Proof. split; [vm_compute; reflexivity | discriminate]. Qed.

(** ** The activation contract, over the reals *)

Module EluContract.

Import Exact.

Open Scope R_scope.

Lemma ge_true (x y : R) : y <= x -> Exact.ge x y = true.
Proof. intros H. unfold Exact.ge. destruct (Rle_dec y x); [reflexivity | lra]. Qed.

Lemma ge_false (x y : R) : x < y -> Exact.ge x y = false.
Proof. intros H. unfold Exact.ge. destruct (Rle_dec y x); [lra | reflexivity]. Qed.

Lemma transfer_nonneg (x : R) : 0 <= x -> transfer x = x.
Proof.
  intros H. unfold transfer, elu. cbn [f_ge f_zero Exact.ops].
  now rewrite ge_true.
Qed.

Lemma transfer_neg (x : R) : x < 0 -> transfer x = exp x - 1.
Proof.
  intros H. unfold transfer, elu. cbn [f_ge f_zero Exact.ops].
  now rewrite ge_false.
Qed.

Lemma transferDerivative_nonneg (y : R) : 0 <= y -> transferDerivative y = 1.
Proof.
  intros H. unfold transferDerivative, eluDerivative. cbn [f_ge f_zero Exact.ops].
  now rewrite ge_true.
Qed.

Lemma transferDerivative_neg (y : R) : y < 0 -> transferDerivative y = exp y.
Proof.
  intros H. unfold transferDerivative, eluDerivative. cbn [f_ge f_zero Exact.ops].
  now rewrite ge_false.
Qed.

Lemma transfer_neg_range (x : R) : x < 0 -> -1 < transfer x < 0.
Proof.
  intros H. rewrite transfer_neg by exact H.
  pose proof (exp_pos x). pose proof (exp_increasing x 0 H) as Hlt.
  rewrite exp_0 in Hlt. lra.
Qed.

Lemma transfer_derivable_neg (x : R) :
  x < 0 -> derivable_pt_lim transfer x (exp x).
Proof.
  intros Hx eps Heps.
  destruct (derivable_pt_lim_exp x eps Heps) as (d & Hd).
  assert (Hpos : 0 < Rmin d (- x)) by (apply Rmin_pos; [apply cond_pos | lra]).
  exists (mkposreal _ Hpos). intros h Hh Habs. cbn [pos] in Habs.
  assert (Hhd : Rabs h < d) by (pose proof (Rmin_l d (- x)); lra).
  assert (Hhx : x + h < 0).
  { pose proof (Rmin_r d (- x)). pose proof (Rle_abs h). lra. }
  rewrite (transfer_neg _ Hhx), (transfer_neg _ Hx).
  replace (exp (x + h) - 1 - (exp x - 1)) with (exp (x + h) - exp x) by lra.
  now apply Hd.
Qed.

Lemma transfer_derivable_pos (x : R) :
  0 < x -> derivable_pt_lim transfer x 1.
Proof.
  intros Hx eps Heps.
  exists (mkposreal x Hx). intros h Hh Habs. cbn [pos] in Habs.
  assert (Hhx : 0 <= x + h).
  { destruct (Rabs_def2 _ _ Habs). lra. }
  rewrite (transfer_nonneg _ Hhx), (transfer_nonneg x) by lra.
  replace ((x + h - x) / h - 1) with 0 by (field; exact Hh).
  now rewrite Rabs_R0.
Qed.

Lemma transfer_derivable_zero : derivable_pt_lim transfer 0 1.
Proof.
  intros eps Heps.
  destruct (derivable_pt_lim_exp 0 eps Heps) as (d & Hd).
  exists d. intros h Hh Habs.
  rewrite (transfer_nonneg 0) by lra. rewrite Rplus_0_l.
  destruct (Rle_dec 0 h) as [Hpos|Hneg].
  - rewrite (transfer_nonneg h Hpos).
    replace ((h - 0) / h - 1) with 0 by (field; exact Hh).
    now rewrite Rabs_R0.
  - rewrite (transfer_neg h) by lra.
    specialize (Hd h Hh Habs). rewrite Rplus_0_l, exp_0 in Hd.
    now replace (exp h - 1 - 0) with (exp h - 1) by lra.
Qed.

(** X12: [transfer] is differentiable at every real [x], at 0 too, with
    derivative 1 for [x >= 0] and [e^x] for [x < 0]. *)
Lemma elu_true_derivative_correct (x : R) :
  derivable_pt_lim transfer x (elu_true_derivative x).
Proof.
  unfold elu_true_derivative. destruct (Rle_dec 0 x) as [H|H].
  - destruct (Req_dec x 0) as [->|Hne].
    + apply transfer_derivable_zero.
    + apply transfer_derivable_pos. lra.
  - apply transfer_derivable_neg. lra.
Qed.

(** X13: on [x >= 0] the default pair keeps the contract:
    [transferDerivative (transfer x)] is the derivative of [transfer] at
    [x]. *)
Lemma contract_holds_nonneg (x : R) :
  0 <= x -> transferDerivative (transfer x) = elu_true_derivative x.
Proof.
  intros H. rewrite (transfer_nonneg x H), (transferDerivative_nonneg x H).
  unfold elu_true_derivative. destruct (Rle_dec 0 x); [reflexivity | lra].
Qed.

(** On [x < 0] it does not: [transferDerivative] takes the exponential
    of the output, where the derivative is the output plus one. *)
Lemma contract_fails_neg (x : R) :
  x < 0 ->
  transferDerivative (transfer x) = exp (exp x - 1) /\
  elu_true_derivative x = transfer x + 1 /\
  transferDerivative (transfer x) <> elu_true_derivative x.
Proof.
  intros H. pose proof (transfer_neg_range x H) as Hr.
  assert (E1 : transferDerivative (transfer x) = exp (exp x - 1)).
  { rewrite transferDerivative_neg by lra. now rewrite transfer_neg. }
  assert (E2 : elu_true_derivative x = exp x).
  { unfold elu_true_derivative. destruct (Rle_dec 0 x); [lra | reflexivity]. }
  split; [exact E1|]. split.
  - rewrite E2, transfer_neg by exact H. lra.
  - rewrite E1, E2. intros E. apply exp_inv in E.
    assert (Hx : x <> 0) by lra.
    pose proof (exp_ineq1 x Hx). lra.
Qed.

(** X9: the sigmoid pair of the same file does keep the contract at every
    [x]: [sigmoidDerivative], written in terms of the output, applied to
    [sigmoid x] is the derivative of [sigmoid] at [x]. *)
Lemma sigmoid_contract_holds (x : R) :
  derivable_pt_lim sigmoid x (sigmoidDerivative (sigmoid x)).
Proof.
  assert (Hpos : 1 + exp (- x) <> 0) by (pose proof (exp_pos (- x)); lra).
  assert (Hexp : derivable_pt_lim (fun t => 1 + exp (- t)) x (- exp (- x))).
  { replace (- exp (- x)) with (0 + exp (- x) * -1) by lra.
    apply (derivable_pt_lim_plus (fct_cte 1) (comp exp (- id)%F)).
    - apply derivable_pt_lim_const.
    - apply (derivable_pt_lim_comp (- id)%F exp).
      + apply derivable_pt_lim_opp. apply derivable_pt_lim_id.
      + apply derivable_pt_lim_exp. }
  pose proof (derivable_pt_lim_div (fct_cte 1) (fun t => 1 + exp (- t)) x
                0 (- exp (- x)) (derivable_pt_lim_const 1 x) Hexp Hpos) as Hdiv.
  unfold sigmoid, sigmoidDerivative.
  cbn [f_div f_add f_sub f_mul f_one f_opp f_exp Exact.ops Exact.libm].
  replace (1 / (1 + exp (- x)) * (1 - 1 / (1 + exp (- x))))
    with ((0 * (1 + exp (- x)) - - exp (- x) * fct_cte 1 x) / Rsqr (1 + exp (- x))).
  - exact Hdiv.
  - unfold fct_cte, Rsqr. field. exact Hpos.
Qed.

(** C1 fails at [x = -1]: [transfer (-1) = e^-1 - 1] is negative, so
    [transferDerivative] returns [e^(e^-1 - 1)], while the derivative of
    [transfer] at [-1] is [e^-1]; the two differ, and
    [transferDerivative (transfer (-1))] is not the derivative there. *)
Theorem elu_contract_fails_at_minus_one :
  transfer (-1) = exp (-1) - 1 /\
  transferDerivative (transfer (-1)) = exp (exp (-1) - 1) /\
  derivable_pt_lim transfer (-1) (exp (-1)) /\
  exp (exp (-1) - 1) <> exp (-1) /\
  ~ derivable_pt_lim transfer (-1) (transferDerivative (transfer (-1))).
Proof.
  assert (Hneg : -1 < 0) by lra.
  destruct (contract_fails_neg (-1) Hneg) as (E1 & _ & Hne).
  assert (E2 : elu_true_derivative (-1) = exp (-1)).
  { unfold elu_true_derivative. destruct (Rle_dec 0 (-1)); [lra | reflexivity]. }
  split; [now apply transfer_neg|]. split; [exact E1|].
  split; [now apply transfer_derivable_neg|].
  rewrite E1, E2 in Hne. split; [exact Hne|].
  intros Hd. apply Hne. rewrite <- E1.
  exact (uniqueness_limite transfer (-1) _ _ Hd (transfer_derivable_neg (-1) Hneg)).
Qed.

Close Scope R_scope.

End EluContract.

(** ** The order of the steps of one example matters

    A concrete step over exact arithmetic: the 1-2-1 network [Demo.net], the
    example 1 -> 0 and learning rate 1.  With the hidden deltas taken from
    the output layer before its update the hidden weights become -2 and -1;
    taken after the update the deltas would be 6 and 15 instead of -3 and
    -3. *)

Module OrderMatters.

Import Exact.

Open Scope R_scope.

Ltac evaluate_closed_form :=
  unfold spec_propagate, spec_outputDeltas, spec_deltas, spec_updateWeights,
    weighted_sum, backpropagated_error, output_error, W_at, b_at, at_index, f_sum;
  cbn [m_inputCount m_outputCount m_pWeights m_pBiases seq map fold_left nth
       Nat.mul Nat.add Nat.div Nat.modulo Nat.divmod Nat.sub fst snd
       f_add f_sub f_mul f_zero Exact.ops].

Lemma hidden_values : spec_propagate Demo.hidden [1] = [1; 2].
Proof.
  unfold Demo.hidden. evaluate_closed_form.
  rewrite !EluContract.transfer_nonneg by lra.
  repeat (f_equal; try lra).
Qed.

Lemma output_values : spec_propagate Demo.output [1; 2] = [3].
Proof.
  unfold Demo.output. evaluate_closed_form.
  rewrite !EluContract.transfer_nonneg by lra.
  repeat (f_equal; try lra).
Qed.

Lemma output_deltas : spec_outputDeltas 1 [3] [0] = [-3].
Proof.
  evaluate_closed_form.
  rewrite !EluContract.transferDerivative_nonneg by lra.
  repeat (f_equal; try lra).
Qed.

Lemma hidden_deltas_before_update :
  spec_deltas Demo.hidden Demo.output [-3] [1; 2] = [-3; -3].
Proof.
  unfold Demo.hidden, Demo.output. evaluate_closed_form.
  rewrite !EluContract.transferDerivative_nonneg by lra.
  repeat (f_equal; try lra).
Qed.

Lemma output_updated :
  spec_updateWeights Demo.output [1; 2] [-3] 1 = mkLayer 2 1 [-2; -5] [-3].
Proof.
  unfold Demo.output. evaluate_closed_form.
  repeat (f_equal; try lra).
Qed.

Lemma hidden_updated :
  spec_updateWeights Demo.hidden [1] [-3; -3] 1 = mkLayer 1 2 [-2; -1] [-3; -3].
Proof.
  unfold Demo.hidden. evaluate_closed_form.
  repeat (f_equal; try lra).
Qed.

Lemma one_example :
  spec_train_example 1 Demo.net ([1], [0])
  = mkNeuralNet (mkLayer 1 2 [-2; -1] [-3; -3]) (mkLayer 2 1 [-2; -5] [-3]).
Proof.
  unfold spec_train_example, Demo.net. cbn [m_hiddenLayer m_outputLayer].
  rewrite hidden_values, output_values.
  change (m_outputCount Demo.output) with 1%nat.
  rewrite output_deltas, hidden_deltas_before_update.
  now rewrite output_updated, hidden_updated.
Qed.

(** What [train] itself does on that example, for one epoch. *)
Lemma one_epoch :
  train [1] [0] 1 1 1 Demo.net
  = Some ([(0%Z, 9)],
          mkNeuralNet (mkLayer 1 2 [-2; -1] [-3; -3]) (mkLayer 2 1 [-2; -5] [-3])).
Proof.
  unfold train.
  bind_step (on_hidden_gets (@m_inputCount R) Demo.hidden Demo.output).
  bind_step (on_hidden_gets (@m_outputCount R) Demo.hidden Demo.output).
  bind_step (on_output_gets (@m_outputCount R) Demo.hidden Demo.output).
  cbn [for_loop_int].
  destruct (train_epoch_correct [1] [0] 1 2 1 1 1 eq_refl eq_refl 0%Z
              (mkScratch (alloc 2) (alloc 2) (alloc 1) (alloc 1)) [] Demo.net)
    as (buf & Hrun & _).
  - repeat split.
  - repeat split.
  - change (m_inputCount Demo.hidden) with 1%nat.
    change (m_outputCount Demo.output) with 1%nat.
    change (m_outputCount Demo.hidden) with 2%nat.
    change (mkNeuralNet Demo.hidden Demo.output) with Demo.net.
    unfold bind. rewrite Hrun.
    unfold lift, ret, int_incr, INT_MAX. cbn [Z.ltb Z.compare app].
    unfold examples_of, spec_epoch, slice.
    cbn [seq map fold_left firstn skipn Nat.mul Nat.add app fst snd].
    rewrite one_example.
    unfold spec_example_error, Demo.net. cbn [m_hiddenLayer m_outputLayer].
    rewrite hidden_values, output_values.
    change (m_outputCount Demo.output) with 1%nat.
    unfold spec_squaredError, output_error, at_index, f_sum.
    cbn [seq map fold_left nth f_add f_sub f_mul f_zero Exact.ops fst snd].
    repeat (f_equal; try lra).
Qed.

(** Had the hidden deltas been computed after [output.updateWeights]: *)
Lemma hidden_deltas_after_update :
  spec_deltas Demo.hidden (spec_updateWeights Demo.output [1; 2] [-3] 1) [-3] [1; 2]
  = [6; 15] /\
  [6; 15] <> [-3; -3].
Proof.
  split.
  - rewrite output_updated. unfold Demo.hidden. evaluate_closed_form.
    rewrite !EluContract.transferDerivative_nonneg by lra.
    repeat (f_equal; try lra).
  - intros E. inversion E. lra.
Qed.

Close Scope R_scope.

End OrderMatters.

(** * Beyond the claims: the rest of the file *)

Example lit_0_8_rounded : B32.div (B32.of_int 8) (B32.of_int 10) = B32Alt.lit_0_8.
Proof. vm_compute. reflexivity. Qed.

(** ** The alternative activation pairs, over the reals *)

Module Activations.

Import Exact ExactAlt.

Open Scope R_scope.

Lemma gt_true (x y : R) : y < x -> ExactAlt.gt x y = true.
Proof. intros H. unfold ExactAlt.gt. destruct (Rlt_dec y x); [reflexivity | lra]. Qed.

Lemma gt_false (x y : R) : x <= y -> ExactAlt.gt x y = false.
Proof. intros H. unfold ExactAlt.gt. destruct (Rlt_dec y x); [lra | reflexivity]. Qed.

Lemma relu_pos (x : R) : 0 <= x -> relu x = x.
Proof.
  intros H. unfold relu. cbn [f_fmax f_zero Exact.ops ExactAlt.max_ops].
  now apply Rmax_right.
Qed.

Lemma relu_neg (x : R) : x <= 0 -> relu x = 0.
Proof.
  intros H. unfold relu. cbn [f_fmax f_zero Exact.ops ExactAlt.max_ops].
  now apply Rmax_left.
Qed.

Lemma reluDerivative_relu (x : R) :
  reluDerivative (relu x) = if Rlt_dec 0 x then 1 else 0.
Proof.
  unfold reluDerivative. cbn [f_gt f_zero f_one Exact.ops ExactAlt.max_ops].
  destruct (Rlt_dec 0 x) as [H|H].
  - rewrite relu_pos by lra. now rewrite gt_true.
  - rewrite relu_neg by lra. rewrite gt_false by lra. reflexivity.
Qed.

(** X10: away from 0, where the rectifier has a derivative, the pair
    [relu] / [reluDerivative] keeps the activation contract:
    [reluDerivative (relu x)] is the derivative of [relu] at [x]. *)
Theorem relu_contract_holds (x : R) :
  x <> 0 -> derivable_pt_lim relu x (reluDerivative (relu x)).
Proof.
  intros Hx. rewrite reluDerivative_relu.
  destruct (Rlt_dec 0 x) as [Hpos|Hneg]; intros eps Heps.
  - exists (mkposreal x Hpos). intros h Hh Habs. cbn [pos] in Habs.
    destruct (Rabs_def2 _ _ Habs) as [_ Hlo].
    rewrite (relu_pos (x + h)), (relu_pos x) by lra.
    replace ((x + h - x) / h - 1) with 0 by (field; exact Hh).
    now rewrite Rabs_R0.
  - assert (Hlt : 0 < - x) by lra.
    exists (mkposreal (- x) Hlt). intros h Hh Habs. cbn [pos] in Habs.
    destruct (Rabs_def2 _ _ Habs) as [Hhi _].
    rewrite (relu_neg (x + h)), (relu_neg x) by lra.
    replace ((0 - 0) / h - 0) with 0 by (field; exact Hh).
    now rewrite Rabs_R0.
Qed.

Lemma relu_contract_holds_witness :
  derivable_pt_lim relu 1 (reluDerivative (relu 1)).
Proof. apply (relu_contract_holds 1). lra. Defined.

Lemma sigmoid_unfold (x : R) : sigmoid x = 1 / (1 + exp (- x)).
Proof. reflexivity. Qed.

Lemma sigmoid_increasing (x y : R) : x < y -> sigmoid x < sigmoid y.
Proof.
  intros H. rewrite !sigmoid_unfold.
  pose proof (exp_pos (- x)). pose proof (exp_pos (- y)).
  assert (exp (- y) < exp (- x)) by (apply exp_increasing; lra).
  unfold Rdiv. rewrite !Rmult_1_l.
  apply Rinv_lt_contravar; [|lra].
  apply Rmult_lt_0_compat; lra.
Qed.

Lemma softplus_unfold (x : R) : softplus x = ln (1 + exp x).
Proof. reflexivity. Qed.

Lemma softplus_above (x : R) : x < softplus x.
Proof.
  rewrite softplus_unfold. rewrite <- (ln_exp x) at 1.
  pose proof (exp_pos x). apply ln_increasing; lra.
Qed.

Lemma softplus_derivable (x : R) : derivable_pt_lim softplus x (sigmoid x).
Proof.
  pose proof (exp_pos x) as Hx. pose proof (exp_pos (- x)) as Hnx.
  assert (Hinner : derivable_pt_lim (fun t => 1 + exp t) x (0 + exp x)).
  { apply (derivable_pt_lim_plus (fct_cte 1) exp).
    - apply derivable_pt_lim_const.
    - apply derivable_pt_lim_exp. }
  rewrite Rplus_0_l in Hinner.
  assert (Hln : derivable_pt_lim ln (1 + exp x) (/ (1 + exp x)))
    by (apply derivable_pt_lim_ln; lra).
  pose proof (derivable_pt_lim_comp (fun t => 1 + exp t) ln x _ _ Hinner Hln) as H.
  replace (sigmoid x) with (/ (1 + exp x) * exp x); [exact H|].
  rewrite sigmoid_unfold, exp_Ropp. field. split; lra.
Qed.

(** X11: the softplus pair breaks the activation contract at every [x]:
    the derivative of [softplus] at [x] is [sigmoid x], and
    [softplusDerivative], applied to the output [softplus x] as the layers
    do, returns the strictly larger [sigmoid (softplus x)]. *)
Theorem softplus_contract_fails (x : R) :
  derivable_pt_lim softplus x (sigmoid x) /\
  softplusDerivative (softplus x) = sigmoid (softplus x) /\
  sigmoid x < softplusDerivative (softplus x) /\
  ~ derivable_pt_lim softplus x (softplusDerivative (softplus x)).
Proof.
  pose proof (sigmoid_increasing _ _ (softplus_above x)) as Hlt.
  split; [apply softplus_derivable|]. split; [reflexivity|].
  split; [exact Hlt|].
  intros Hd.
  pose proof (uniqueness_limite softplus x _ _ Hd (softplus_derivable x)) as E.
  unfold softplusDerivative in E. lra.
Qed.

Close Scope R_scope.

End Activations.

(** ** The rectifier in binary32 *)

Module Rectifier32.

Import B32 B32Alt.

Lemma relu_cases (x : float32) :
  relu x = if gt x pzero then x else pzero.
Proof.
  unfold relu. cbn [f_fmax f_zero B32.ops B32Alt.max_ops].
  destruct x as [[|]|[|]| |[|] m e]; reflexivity.
Qed.

(** X14: in binary32, for every input, NaN, infinities and both zeros
    included, [relu] returns its argument when that is greater than zero
    and a zero otherwise; so it never returns a NaN or a negative number,
    and [reluDerivative (relu x)] is [1.0f] exactly when [x > 0] and [0.0f]
    otherwise. *)
Theorem relu_binary32 (x : float32) :
  (if gt x pzero then relu x = x else is_zero (relu x) = true) /\
  relu x <> S754_nan /\
  ge (relu x) pzero = true /\
  reluDerivative (relu x) = (if gt x pzero then one else pzero).
Proof.
  rewrite relu_cases. unfold reluDerivative.
  cbn [f_gt f_zero f_one B32.ops B32Alt.max_ops].
  destruct x as [[|]|[|]| |[|] m e]; cbn;
    repeat split; try reflexivity; discriminate.
Qed.

End Rectifier32.

(** ** Calls that read past a buffer *)

Lemma for_loop_fails_at {St A} (body : nat -> A -> M St A) :
  forall count first a s k,
    first <= k < first + count ->
    (forall a s, body k a s = None) ->
    for_loop first count body a s = None.
Proof.
  induction count as [|count IH]; intros first a s k Hk Hfail; [lia|].
  cbn [for_loop]. unfold bind at 1.
  destruct (Nat.eq_dec first k) as [->|Hne].
  - now rewrite Hfail.
  - destruct (body first a s) as [[a' s']|]; [|reflexivity].
    apply (IH (S first) a' s' k); [lia | exact Hfail].
Qed.

(** A loop whose body keeps a property of the state keeps it. *)
Lemma for_loop_keeps {St A} (I : St -> Prop) (body : nat -> A -> M St A) :
  (forall i a s a' s', I s -> body i a s = Some (a', s') -> I s') ->
  forall count first a s a' s',
    I s -> for_loop first count body a s = Some (a', s') -> I s'.
Proof.
  intros Hkeep. induction count as [|count IH]; intros first a s a' s' HI Hrun.
  - cbn in Hrun. inversion Hrun; subst. exact HI.
  - cbn [for_loop] in Hrun. unfold bind at 1 in Hrun.
    destruct (body first a s) as [[a1 s1]|] eqn:Hbody; [|discriminate].
    exact (IH (S first) a1 s1 a' s' (Hkeep _ _ _ _ _ HI Hbody) Hrun).
Qed.

(** The same as [for_loop_fails_at] when the failure depends on the state. *)
Lemma for_loop_fails_at_in {St A} (I : St -> Prop) (body : nat -> A -> M St A) :
  (forall i a s a' s', I s -> body i a s = Some (a', s') -> I s') ->
  forall count first a s k,
    first <= k < first + count ->
    I s ->
    (forall a s, I s -> body k a s = None) ->
    for_loop first count body a s = None.
Proof.
  intros Hkeep.
  induction count as [|count IH]; intros first a s k Hk HI Hfail; [lia|].
  cbn [for_loop]. unfold bind at 1.
  destruct (Nat.eq_dec first k) as [->|Hne].
  - now rewrite Hfail.
  - destruct (body first a s) as [[a' s']|] eqn:Hbody; [|reflexivity].
    apply (IH (S first) a' s' k); [lia | exact (Hkeep _ _ _ _ _ HI Hbody) | exact Hfail].
Qed.

Section ShortInput.

Context {F : Type} {ops : FloatOps F} {libm : FloatExp F}.

(** One unit of [propagate] reads the layer and does not change it. *)
Lemma propagate_unit_keeps (L : Layer F) (pInputs : list F) (o : nat)
  (pOutputs : list F) (s : Layer F) (pOutputs' : list F) (s' : Layer F) :
  s = L ->
  (inputCount <- gets (@m_inputCount F) ;;
   let pWeights := inputCount * o in
   fActivation <- read_bias o ;;
   fActivation <-
     for_loop 0 inputCount
       (fun i fActivation =>
          x <- lift (load pInputs i) ;;
          w <- read_weight (pWeights + i) ;;
          ret (f_add fActivation (f_mul x w)))
       fActivation ;;
   lift (store pOutputs o (transfer fActivation))) s = Some (pOutputs', s') ->
  s' = L.
Proof.
  intros -> Hrun. rewrite bind_gets in Hrun. cbv zeta in Hrun.
  unfold bind at 1 in Hrun. unfold read_bias at 1 in Hrun.
  rewrite bind_gets in Hrun. unfold lift at 1 in Hrun.
  destruct (load (m_pBiases L) o) as [b|]; [|discriminate].
  unfold bind at 1 in Hrun.
  match type of Hrun with context [for_loop 0 ?n ?body ?a ?st] =>
    destruct (for_loop 0 n body a st) as [[acc s1]|] eqn:Hinner; [|discriminate];
    assert (Hs1 : s1 = L)
  end.
  { refine (for_loop_keeps (fun st => st = L) _ _ _ _ _ _ _ _ eq_refl Hinner).
    intros i a st a' st' -> Hbody.
    unfold bind at 1, lift at 1 in Hbody.
    destruct (load pInputs i) as [x|]; [|discriminate].
    unfold bind at 1, read_weight in Hbody. rewrite bind_gets in Hbody.
    unfold lift at 1 in Hbody.
    destruct (load (m_pWeights L) (m_inputCount L * o + i)) as [w|]; [|discriminate].
    cbn in Hbody. now inversion Hbody. }
  subst s1. unfold lift in Hrun.
  destruct (store pOutputs o (transfer acc)); [|discriminate].
  now inversion Hrun.
Qed.

(** [propagate] reads the weight at every index below [n_in * n_out]: on a
    layer that holds fewer weights it reads past the end of [W]. *)
Lemma propagate_missing_weights (L : Layer F) (inputs outputs : list F) :
  length (m_pWeights L) < m_inputCount L * m_outputCount L ->
  propagate inputs outputs L = None.
Proof.
  intros Hshort.
  set (n_in := m_inputCount L) in *. set (w := length (m_pWeights L)) in *.
  assert (Hn : 0 < n_in) by (destruct n_in; [cbn in Hshort; lia | lia]).
  assert (Hw : w = n_in * (w / n_in) + w mod n_in) by (apply Nat.div_mod_eq).
  assert (Hi : w mod n_in < n_in) by (apply Nat.mod_upper_bound; lia).
  assert (Ho : w / n_in < m_outputCount L).
  { apply Nat.Div0.div_lt_upper_bound. exact Hshort. }
  unfold propagate. rewrite bind_gets.
  apply (for_loop_fails_at_in (fun st => st = L)) with (k := w / n_in);
    [ | lia | reflexivity | ].
  - intros o a st a' st' Hst Hbody.
    exact (propagate_unit_keeps L inputs o a st a' st' Hst Hbody).
  - intros a st ->. rewrite bind_gets. cbv zeta. fold n_in.
    unfold bind at 1.
    destruct (read_bias (w / n_in) L) as [[b s1]|] eqn:Hb; [|reflexivity].
    assert (s1 = L) as ->.
    { unfold read_bias in Hb. rewrite bind_gets in Hb. unfold lift in Hb.
      destruct (load (m_pBiases L) (w / n_in)); [|discriminate]. now inversion Hb. }
    apply bind_None.
    apply (for_loop_fails_at_in (fun st => st = L)) with (k := w mod n_in);
      [ | lia | reflexivity | ].
    + intros i acc st acc' st' -> Hbody.
      unfold bind at 1, lift at 1 in Hbody.
      destruct (load inputs i) as [x|]; [|discriminate].
      unfold bind at 1, read_weight in Hbody. rewrite bind_gets in Hbody.
      unfold lift at 1 in Hbody.
      destruct (load (m_pWeights L) (n_in * (w / n_in) + i)) as [w0|]; [|discriminate].
      cbn in Hbody. now inversion Hbody.
    + intros acc st ->. unfold bind at 1, lift at 1.
      destruct (load inputs (w mod n_in)) as [x|]; [|reflexivity].
      apply bind_None. unfold read_weight. rewrite bind_gets. unfold lift, load.
      rewrite <- Hw.
      now rewrite (proj2 (nth_error_None (m_pWeights L) w) (Nat.le_refl _)).
Qed.

(** X5: [propagate] does not check the length of its input: on a layer
    with at least one output unit, an input buffer shorter than [n_in] is
    read past its end, which is undefined behaviour and not a rejection. *)
Theorem propagate_short_input (L : Layer F) (inputs outputs : list F) :
  length inputs < m_inputCount L ->
  0 < m_outputCount L ->
  propagate inputs outputs L = None.
Proof.
  intros Hin Hout. unfold propagate. rewrite bind_gets.
  destruct (m_outputCount L) as [|n]; [lia|].
  cbn [for_loop]. apply bind_None. rewrite bind_gets.
  unfold bind at 1. destruct (read_bias 0 L) as [[b s]|]; [|reflexivity].
  apply bind_None. apply (for_loop_fails_at _ _ _ _ _ (length inputs)); [lia|].
  intros acc s'. apply bind_None. unfold lift, load.
  now rewrite (proj2 (nth_error_None inputs (length inputs)) (Nat.le_refl _)).
Qed.

End ShortInput.

Lemma propagate_short_input_witness :
  propagate [1%R] [0%R] Demo.layer = None.
Proof.
  apply (propagate_short_input Demo.layer [1%R] [0%R]); cbn; lia.
Defined.

(** ** Construction *)

Section MoreConstruction.

Context {F : Type} {ops : FloatOps F} {libm : FloatExp F}.

Variable RAND_MAX : Z.
Variable Rng : Type.
Variable rand_step : Rng -> Z * Rng.

(** X6: [randomize] on a buffer of at least [count] elements succeeds; it
    overwrites the first [count] elements with the next [count] values of
    [rand()], in order, each [r] turned into
    [(float(r) / float(RAND_MAX)) * 0.4f + 0.5f]; it leaves the rest of the
    buffer alone and the generator [count] steps further. *)
Theorem randomize_spec (pValues : list F) (count : nat) (s : Rng) :
  count <= length pValues ->
  randomize RAND_MAX rand_step pValues count s
  = Some (map (sample_to_float RAND_MAX) (fst (draws rand_step count s))
            ++ skipn count pValues,
          snd (draws rand_step count s)) /\
  length (fst (draws rand_step count s)) = count.
Proof.
  intros Hlen. split; [now apply randomize_correct | apply draws_length].
Qed.


(** X18: when the product of the widths does not fit in a [size_t], the
    constructor still returns a layer, but one with fewer than
    [n_in * n_out] weights, and every call of [propagate] on that layer
    reads past the end of [W]. *)
Theorem Layer_new_product_wraps (inputCount outputCount : nat) (s : Rng) :
  (18446744073709551615 < Z.of_nat inputCount * Z.of_nat outputCount)%Z ->
  exists L s',
    Layer_new RAND_MAX rand_step inputCount outputCount s = Some (L, s') /\
    m_inputCount L = inputCount /\ m_outputCount L = outputCount /\
    length (m_pWeights L) < inputCount * outputCount /\
    forall inputs outputs, propagate inputs outputs L = None.
Proof.
  intros Hwrap. rewrite Layer_new_correct. eexists _, _. split; [reflexivity|].
  cbn [m_inputCount m_outputCount m_pWeights].
  split; [reflexivity|]. split; [reflexivity|].
  assert (Hlen : length (map (sample_to_float RAND_MAX)
                   (fst (draws rand_step (size_t_mul inputCount outputCount) s)))
                 < inputCount * outputCount).
  { rewrite length_map, draws_length. now apply size_t_mul_wraps. }
  split; [exact Hlen|].
  intros inputs outputs. apply propagate_missing_weights. exact Hlen.
Qed.

Lemma NeuralNet_new_run (inputCount hiddenCount outputCount : nat) (s : Rng) :
  (Z.of_nat inputCount * Z.of_nat hiddenCount <= SIZE_MAX)%Z ->
  (Z.of_nat hiddenCount * Z.of_nat outputCount <= SIZE_MAX)%Z ->
  exists hidden s1 output s2,
    Layer_new RAND_MAX rand_step inputCount hiddenCount s = Some (hidden, s1) /\
    Layer_new RAND_MAX rand_step hiddenCount outputCount s1 = Some (output, s2) /\
    NeuralNet_new RAND_MAX rand_step inputCount hiddenCount outputCount s
    = Some (mkNeuralNet hidden output, s2) /\
    net_shape inputCount hiddenCount outputCount (mkNeuralNet hidden output).
Proof.
  intros Hfit1 Hfit2.
  destruct (Layer_new RAND_MAX rand_step inputCount hiddenCount s)
    as [[h s1]|] eqn:Hh; [|rewrite Layer_new_correct in Hh; discriminate].
  destruct (Layer_new RAND_MAX rand_step hiddenCount outputCount s1)
    as [[o s2]|] eqn:Ho; [|rewrite Layer_new_correct in Ho; discriminate].
  destruct (Layer_new_wf _ _ _ _ _ _ _ _ Hfit1 Hh) as (Hwh & Hhi & Hho).
  destruct (Layer_new_wf _ _ _ _ _ _ _ _ Hfit2 Ho) as (Hwo & Hoi & Hoo).
  exists h, s1, o, s2. split; [reflexivity|]. split; [exact Ho|]. split.
  - unfold NeuralNet_new. bind_step Hh. bind_step Ho. reflexivity.
  - unfold net_shape. cbn [m_hiddenLayer m_outputLayer]. auto 10.
Qed.


End MoreConstruction.

Lemma randomize_spec_witness :
  randomize Lcg.RAND_MAX Lcg.rand_step [0; 0; 7]%R 2 1%Z
  = Some (map (sample_to_float Lcg.RAND_MAX) (fst (draws Lcg.rand_step 2 1%Z))
            ++ skipn 2 [0; 0; 7]%R,
          snd (draws Lcg.rand_step 2 1%Z)) /\
  length (fst (draws Lcg.rand_step 2 1%Z)) = 2.
Proof.
  apply (randomize_spec (F := R) Lcg.RAND_MAX Z Lcg.rand_step [0; 0; 7]%R 2 1%Z).
  cbn. lia.
Defined.

(** ** More about training and evaluation *)

Section MoreTraining.

Context {F : Type} {ops : FloatOps F} {libm : FloatExp F}.

(** [train] against its closed form, for use below. *)
Lemma train_closed (net : NeuralNet F) (pAllInputs pAllExpectedOutputs : list F)
  (testCount epochCount : nat) (learningRate : F) :
  NeuralNet_wf net ->
  length pAllInputs = testCount * m_inputCount (m_hiddenLayer net) ->
  length pAllExpectedOutputs = testCount * m_outputCount (m_outputLayer net) ->
  (Z.of_nat epochCount <= INT_MAX)%Z ->
  let examples :=
    examples_of pAllInputs pAllExpectedOutputs
      (m_inputCount (m_hiddenLayer net)) (m_outputCount (m_outputLayer net))
      testCount in
  train pAllInputs pAllExpectedOutputs testCount epochCount learningRate net
  = Some (map (spec_report learningRate examples net) (seq 0 epochCount),
          spec_train learningRate examples epochCount net).
Proof.
  intros Hwf Hin Hex Hmax examples.
  pose proof (NeuralNet_wf_shape net Hwf) as Hshape.
  destruct net as [h o]. cbn [m_hiddenLayer m_outputLayer] in *.
  set (n_in := m_inputCount h) in *.
  set (n_hid := m_outputCount h) in *.
  set (n_out := m_outputCount o) in *.
  unfold train.
  bind_step (on_hidden_gets (@m_inputCount F) h o).
  bind_step (on_hidden_gets (@m_outputCount F) h o).
  bind_step (on_output_gets (@m_outputCount F) h o).
  fold n_in n_hid n_out.
  match goal with |- context [for_loop_int _ _ ?body ?init] =>
    destruct (for_loop_int_inv
      (fun e (acc : Scratch F * list (Z * F)) s =>
         exists k, e = Z.of_nat k /\
           s = spec_train learningRate examples k (mkNeuralNet h o) /\
           snd acc = map (spec_report learningRate examples (mkNeuralNet h o)) (seq 0 k) /\
           scratch_fits n_hid n_out (fst acc) /\
           net_shape n_in n_hid n_out s)
      body epochCount 0%Z init (mkNeuralNet h o))
      as ([buf printed] & s & Hloop & k & Hk & Hs & Hprinted & _ & _)
  end.
  - lia.
  - exists 0. cbn [fst snd]. split; [reflexivity|]. split; [reflexivity|].
    split; [reflexivity|]. split; [|exact Hshape].
    unfold scratch_fits. cbn. now rewrite !alloc_length.
  - intros e [buf printed] s He (k & -> & -> & Hprinted & Hbuf & Hs).
    cbn [fst snd] in *.
    destruct (train_epoch_correct pAllInputs pAllExpectedOutputs n_in n_hid n_out
                testCount learningRate Hin Hex (Z.of_nat k) buf printed _ Hs Hbuf)
      as (buf' & Hrun & Hbuf').
    eexists (_, _), _. split; [exact Hrun|].
    exists (S k). cbn [fst snd].
    split; [lia|]. split; [reflexivity|]. split; [|split].
    + rewrite seq_S, map_app, Hprinted. reflexivity.
    + exact Hbuf'.
    + apply spec_epoch_shape. exact Hs.
  - cbn [fst snd] in *. bind_step Hloop. cbv beta iota. unfold ret.
    assert (k = epochCount) as -> by lia.
    now rewrite Hprinted, Hs.
Qed.

Lemma spec_train_shape (n_in n_hid n_out : nat) (learningRate : F)
  (examples : list (list F * list F)) (k : nat) (net : NeuralNet F) :
  net_shape n_in n_hid n_out net ->
  net_shape n_in n_hid n_out (spec_train learningRate examples k net).
Proof.
  intros Hnet. induction k as [|k IH]; cbn [spec_train]; [exact Hnet|].
  now apply spec_epoch_shape.
Qed.

Lemma net_shape_wf (n_in n_hid n_out : nat) (net : NeuralNet F) :
  net_shape n_in n_hid n_out net -> NeuralNet_wf net.
Proof.
  intros (Hwh & Hwo & Hhi & Hho & Hoi & Hoo). unfold NeuralNet_wf.
  split; [exact Hwh|]. split; [exact Hwo | lia].
Qed.

(** X3: training never resizes anything: after [train] both layers have
    the widths they had, [W] and [b] have the sizes the widths demand, the
    hidden layer's output width is still the output layer's input width,
    and one line was printed per epoch. *)
Theorem train_keeps_shape (net : NeuralNet F) (pAllInputs pAllExpectedOutputs : list F)
  (testCount epochCount : nat) (learningRate : F) :
  NeuralNet_wf net ->
  length pAllInputs = testCount * m_inputCount (m_hiddenLayer net) ->
  length pAllExpectedOutputs = testCount * m_outputCount (m_outputLayer net) ->
  (Z.of_nat epochCount <= INT_MAX)%Z ->
  exists printed net',
    train pAllInputs pAllExpectedOutputs testCount epochCount learningRate net
    = Some (printed, net') /\
    length printed = epochCount /\
    NeuralNet_wf net' /\
    m_inputCount (m_hiddenLayer net') = m_inputCount (m_hiddenLayer net) /\
    m_outputCount (m_hiddenLayer net') = m_outputCount (m_hiddenLayer net) /\
    m_inputCount (m_outputLayer net') = m_inputCount (m_outputLayer net) /\
    m_outputCount (m_outputLayer net') = m_outputCount (m_outputLayer net) /\
    length (m_pWeights (m_hiddenLayer net')) = length (m_pWeights (m_hiddenLayer net)) /\
    length (m_pBiases (m_hiddenLayer net')) = length (m_pBiases (m_hiddenLayer net)) /\
    length (m_pWeights (m_outputLayer net')) = length (m_pWeights (m_outputLayer net)) /\
    length (m_pBiases (m_outputLayer net')) = length (m_pBiases (m_outputLayer net)).
Proof.
  intros Hwf Hin Hex Hmax.
  pose proof (train_closed net pAllInputs pAllExpectedOutputs testCount epochCount
                learningRate Hwf Hin Hex Hmax) as Hrun.
  cbv zeta in Hrun.
  pose proof (NeuralNet_wf_shape net Hwf) as Hshape.
  pose proof (spec_train_shape _ _ _ learningRate
                (examples_of pAllInputs pAllExpectedOutputs
                   (m_inputCount (m_hiddenLayer net))
                   (m_outputCount (m_outputLayer net)) testCount)
                epochCount net Hshape) as Hshape'.
  eexists _, _. split; [exact Hrun|].
  split; [now rewrite length_map, length_seq|].
  split; [exact (net_shape_wf _ _ _ _ Hshape')|].
  destruct Hshape as ((HW1 & Hb1) & (HW2 & Hb2) & _).
  destruct Hshape' as ((HW1' & Hb1') & (HW2' & Hb2') & Hhi & Hho & Hoi & Hoo).
  destruct Hwf as (_ & _ & Hdim).
  repeat split; try assumption; try congruence.
Qed.

(** X4: with no example at all ([testCount = 0]) [train] never touches the
    two buffers or the network, whatever they are: the network is returned
    as it was and every epoch reports the total error [0.0f]. *)
Theorem train_no_examples (net : NeuralNet F) (pAllInputs pAllExpectedOutputs : list F)
  (epochCount : nat) (learningRate : F) :
  (Z.of_nat epochCount <= INT_MAX)%Z ->
  train pAllInputs pAllExpectedOutputs 0 epochCount learningRate net
  = Some (map (fun k => (Z.of_nat k, f_zero)) (seq 0 epochCount), net).
Proof.
  intros Hmax. destruct net as [h o]. unfold train.
  bind_step (on_hidden_gets (@m_inputCount F) h o).
  bind_step (on_hidden_gets (@m_outputCount F) h o).
  bind_step (on_output_gets (@m_outputCount F) h o).
  match goal with |- context [for_loop_int _ _ ?body ?init] =>
    destruct (for_loop_int_inv
      (fun e (acc : Scratch F * list (Z * F)) s =>
         exists k, e = Z.of_nat k /\ s = mkNeuralNet h o /\
           snd acc = map (fun k => (Z.of_nat k, f_zero)) (seq 0 k))
      body epochCount 0%Z init (mkNeuralNet h o))
      as ([buf printed] & s & Hloop & k & Hk & Hs & Hprinted)
  end.
  - lia.
  - exists 0. now repeat split.
  - intros e [buf printed] s He (k & -> & -> & Hprinted). cbn [fst snd] in *.
    eexists (_, _), _. split; [reflexivity|].
    exists (S k). cbn [fst snd]. split; [lia|]. split; [reflexivity|].
    now rewrite seq_S, map_app, Hprinted.
  - cbn [fst snd] in *. bind_step Hloop. cbv beta iota. unfold ret.
    assert (k = epochCount) as -> by lia.
    now rewrite Hprinted, Hs.
Qed.

(** X1: [evaluate] on a well-formed network returns the output layer's
    propagation of the hidden layer's propagation of the input and leaves
    the network exactly as it was; the input may be the head of a longer
    buffer. *)
Theorem evaluate_spec (net : NeuralNet F) (pInputs pOutputs : list F) :
  NeuralNet_wf net ->
  m_inputCount (m_hiddenLayer net) <= length pInputs ->
  length pOutputs = m_outputCount (m_outputLayer net) ->
  evaluate pInputs pOutputs net
  = Some (spec_propagate (m_outputLayer net)
            (spec_propagate (m_hiddenLayer net) pInputs), net) /\
  length (spec_propagate (m_outputLayer net)
            (spec_propagate (m_hiddenLayer net) pInputs))
  = m_outputCount (m_outputLayer net).
Proof.
  intros Hwf Hin Hout. split; [now apply evaluate_correct|].
  apply spec_propagate_length.
Qed.

End MoreTraining.

Lemma train_keeps_shape_witness :
  exists printed net',
    train [1%R] [0%R] 1 2 1%R Demo.net = Some (printed, net') /\
    length printed = 2 /\
    NeuralNet_wf net' /\
    m_inputCount (m_hiddenLayer net') = 1 /\
    m_outputCount (m_hiddenLayer net') = 2 /\
    m_inputCount (m_outputLayer net') = 2 /\
    m_outputCount (m_outputLayer net') = 1 /\
    length (m_pWeights (m_hiddenLayer net')) = 2 /\
    length (m_pBiases (m_hiddenLayer net')) = 2 /\
    length (m_pWeights (m_outputLayer net')) = 2 /\
    length (m_pBiases (m_outputLayer net')) = 1.
Proof.
  apply (train_keeps_shape Demo.net [1%R] [0%R] 1 2 1%R).
  - split; [split; reflexivity|]. split; [split; reflexivity | reflexivity].
  - reflexivity.
  - reflexivity.
  - unfold INT_MAX. lia.
Defined.

Lemma train_no_examples_witness :
  train [] [] 0 3 1%R Demo.net
  = Some (map (fun k => (Z.of_nat k, f_zero)) (seq 0 3), Demo.net).
Proof.
  apply (train_no_examples Demo.net [] [] 3 1%R). unfold INT_MAX. lia.
Defined.

Lemma evaluate_spec_witness :
  evaluate [1%R] [0%R] Demo.net
  = Some (spec_propagate Demo.output (spec_propagate Demo.hidden [1%R]), Demo.net) /\
  length (spec_propagate Demo.output (spec_propagate Demo.hidden [1%R])) = 1.
Proof.
  apply (evaluate_spec Demo.net [1%R] [0%R]).
  - split; [split; reflexivity|]. split; [split; reflexivity | reflexivity].
  - cbn. lia.
  - reflexivity.
Defined.

(** ** [print] *)

Lemma int_of_size_t_small (i : nat) :
  (Z.of_nat i < 2147483648)%Z -> int_of_size_t i = Z.of_nat i.
Proof.
  intros H. unfold int_of_size_t.
  rewrite Z.mod_small by lia. lia.
Qed.

Lemma combine_app_same {A B} (l1 l2 : list A) (m1 m2 : list B) :
  length l1 = length m1 ->
  combine (l1 ++ l2) (m1 ++ m2) = combine l1 m1 ++ combine l2 m2.
Proof.
  revert m1. induction l1 as [|a l1 IH]; intros [|b m1] H;
    cbn in *; try discriminate; [reflexivity|].
  f_equal. apply IH. lia.
Qed.

Lemma combine_seq_snoc {A} (p : list A) (n : nat) (v : A) :
  nth_error p n = Some v ->
  combine (seq 0 (S n)) (firstn (S n) p)
  = combine (seq 0 n) (firstn n p) ++ [(n, v)].
Proof.
  intros Hv.
  assert (Hn : n < length p) by (apply nth_error_Some; congruence).
  assert (Hf : firstn (S n) p = firstn n p ++ [v]).
  { clear Hn. revert n Hv. induction p as [|h t IH]; intros [|n] Hv;
      cbn in *; try discriminate.
    - now inversion Hv.
    - f_equal. now apply IH. }
  rewrite Hf, seq_S. cbn [Nat.add].
  rewrite combine_app_same by (rewrite length_seq, length_firstn; lia).
  reflexivity.
Qed.

(** X8: [print] on a buffer of at least [count] values writes exactly
    [count] lines after what was written before, one per element in index
    order, each with the given name, the index cast to [int] and the value;
    the cast is the index itself below [2^31]. *)
Theorem print_spec {F Name : Type} (strName : Name) (pValues : list F)
  (count : nat) (written : list (Name * Z * F)) :
  count <= length pValues ->
  print strName pValues count written
  = Some (tt, written ++
              map (fun '(i, v) => (strName, int_of_size_t i, v))
                  (combine (seq 0 count) (firstn count pValues))) /\
  (forall i, i < count -> (Z.of_nat count <= 2147483648)%Z ->
     int_of_size_t i = Z.of_nat i).
Proof.
  intros Hlen. split.
  - unfold print.
    match goal with |- for_loop _ _ ?body _ _ = _ =>
      destruct (for_loop_inv
        (fun i (_ : unit) out =>
           out = written ++
                 map (fun '(i, v) => (strName, int_of_size_t i, v))
                     (combine (seq 0 i) (firstn i pValues)))
        body count 0 tt written)
        as ([] & out & Hloop & ->)
    end; [ | | exact Hloop ].
    + cbn. now rewrite app_nil_r.
    + intros i [] out Hi ->.
      assert (Hi' : i < length pValues) by lia.
      destruct (nth_error pValues i) as [v|] eqn:Hv;
        [|apply nth_error_None in Hv; lia].
      assert (Hload : load pValues i = Some v) by exact Hv.
      lift_step Hload.
      eexists tt, _. split; [reflexivity|].
      rewrite (combine_seq_snoc pValues i v Hv), map_app, app_assoc.
      reflexivity.
  - intros i Hi Hc. apply int_of_size_t_small. lia.
Qed.

Lemma print_spec_witness :
  print 0%nat [1%R; 2%R; 3%R] 2 []
  = Some (tt, [] ++
              map (fun '(i, v) => (0%nat, int_of_size_t i, v))
                  (combine (seq 0 2) (firstn 2 [1%R; 2%R; 3%R]))) /\
  (forall i, i < 2 -> (Z.of_nat 2 <= 2147483648)%Z ->
     int_of_size_t i = Z.of_nat i).
Proof.
  apply (print_spec 0%nat [1%R; 2%R; 3%R] 2 []). cbn. lia.
Defined.

(** ** [main] *)

Section MainProofs.

Context {F : Type} {ops : FloatOps F} {libm : FloatExp F}.
Context {literals : FloatLiterals F}.

Lemma at_index_offset_ptr (p : list F) (offset j : nat) :
  at_index (offset_ptr p offset) j = at_index p (offset + j).
Proof.
  unfold at_index, offset_ptr. revert p.
  induction offset as [|n IH]; intros p; [reflexivity|].
  destruct p as [|h t]; cbn [skipn Nat.add nth].
  - now destruct j.
  - apply IH.
Qed.

Lemma call_on_Some {St A} (net : NeuralNet F) (m : M (NeuralNet F) A)
  (s : St) a net' :
  m net = Some (a, net') -> call_on net m s = Some ((a, net'), s).
Proof. unfold call_on. now intros ->. Qed.

Lemma check_loop {St} (trained : NeuralNet F) (s : St) :
  net_shape 1 8 1 trained ->
  exists outputs,
    for_loop 0 s_testCount
      (fun i '(lines, outputs) =>
         '(outputs', _) <-
           call_on trained (evaluate (offset_ptr s_testInputData i) outputs) ;;
         x <- lift (load s_testInputData i) ;;
         y <- lift (load outputs' 0) ;;
         ret (lines ++ [(x, y)], outputs'))
      ([], [f_zero]) s
    = Some ((map (checked_line trained) (seq 0 s_testCount), outputs), s).
Proof.
  intros Hshape. pose proof (net_shape_wf _ _ _ _ Hshape) as Hwf.
  destruct Hshape as (_ & _ & Hhi & _ & _ & Hoo).
  match goal with |- exists _, for_loop _ _ ?body ?init _ = _ =>
    destruct (for_loop_inv
      (fun i (acc : list (F * F) * list F) s' =>
         s' = s /\ fst acc = map (checked_line trained) (seq 0 i) /\
         length (snd acc) = 1)
      body s_testCount 0 init s)
      as ([lines outs] & s' & Hloop & -> & Hlines & _)
  end.
  - now repeat split.
  - intros i [lines outs] s' Hi (-> & Hlines & Houts). cbn [fst snd] in *.
    assert (Hi4 : i < 4) by (unfold s_testCount in Hi; lia).
    assert (Hlen : m_inputCount (m_hiddenLayer trained)
                   <= length (offset_ptr s_testInputData i)).
    { rewrite Hhi. unfold offset_ptr. rewrite length_skipn.
      unfold s_testInputData. cbn [length]. lia. }
    assert (Houts' : length outs = m_outputCount (m_outputLayer trained)) by lia.
    pose proof (evaluate_correct trained _ outs Hwf Hlen Houts') as Hev.
    bind_step (call_on_Some trained _ s _ _ Hev). cbv beta iota.
    assert (Hagree : agree_upto (m_inputCount (m_hiddenLayer trained))
                       (offset_ptr s_testInputData i)
                       [at_index s_testInputData i]).
    { rewrite Hhi. intros j Hj. assert (j = 0) as -> by lia.
      rewrite at_index_offset_ptr, Nat.add_0_r. reflexivity. }
    rewrite (spec_propagate_agree _ _ _ Hagree).
    assert (Hx : i < length (s_testInputData (F := F)))
      by (unfold s_testInputData; cbn [length]; lia).
    lift_step (load_in_range s_testInputData i f_zero Hx).
    match goal with |- context [load ?out 0] =>
      assert (Hy : 0 < length out) by (rewrite spec_propagate_length; lia);
      lift_step (load_in_range out 0 f_zero Hy)
    end.
    eexists (_, _), s. split; [reflexivity|]. cbn [fst snd].
    split; [reflexivity|]. split.
    + rewrite seq_S, map_app, Hlines. reflexivity.
    + rewrite spec_propagate_length. exact Hoo.
  - cbn [fst snd] in *. exists outs. now rewrite Hloop, Hlines.
Qed.

Variable RAND_MAX : Z.
Variable Rng : Type.
Variable rand_step : Rng -> Z * Rng.

(** X7: [main] is free of undefined behaviour whatever [rand()] returns.
    It builds a 1-8-1 network, prints the 50 epoch lines of training on the
    four built-in examples, then one line per test input with the output
    of the trained network, and returns 0. *)
Theorem main_spec (s : Rng) :
  exists net s',
    NeuralNet_new (F := F) RAND_MAX rand_step 1 8 1 s = Some (net, s') /\
    let examples := examples_of s_testInputData s_testOutputData 1 1 4 in
    let trained := spec_train f_0_2 examples 50 net in
    main RAND_MAX rand_step s
    = Some ((map (spec_report f_0_2 examples net) (seq 0 50),
             map (checked_line trained) (seq 0 4),
             0%Z), s').
Proof.
  destruct (NeuralNet_new_run (F := F) RAND_MAX Rng rand_step 1 8 1 s)
    as (h & s1 & o & s2 & _ & _ & Hnew & Hshape);
    [unfold SIZE_MAX; lia | unfold SIZE_MAX; lia |].
  exists (mkNeuralNet h o), s2. split; [exact Hnew|]. intros examples trained.
  pose proof (net_shape_wf _ _ _ _ Hshape) as Hwf.
  pose proof Hshape as (_ & _ & Hhi & _ & _ & Hoo).
  unfold main. bind_step Hnew.
  assert (Htrain :
    train s_testInputData s_testOutputData s_testCount 50 f_0_2 (mkNeuralNet h o)
    = Some (map (spec_report f_0_2 examples (mkNeuralNet h o)) (seq 0 50), trained)).
  { pose proof (train_closed (mkNeuralNet h o) s_testInputData s_testOutputData
                  s_testCount 50 f_0_2 Hwf) as H.
    rewrite Hhi, Hoo in H. apply H; [reflexivity | reflexivity |].
    unfold INT_MAX. lia. }
  bind_step (call_on_Some (mkNeuralNet h o) _ s2 _ _ Htrain). cbv beta iota.
  assert (Hshape' : net_shape 1 8 1 trained) by now apply spec_train_shape.
  destruct (check_loop trained s2 Hshape') as (outs & Hloop).
  bind_step Hloop. reflexivity.
Qed.

End MainProofs.

(** ** [computeDeltas] without the width precondition *)

Section Stride.

Context {F : Type} {ops : FloatOps F} {libm : FloatExp F}.

Lemma computeDeltas_row_stride (L pNextLayer : Layer F) (pNextDeltas : list F)
  (o : nat) :
  m_outputCount L * m_outputCount pNextLayer <= length (m_pWeights pNextLayer) ->
  m_outputCount pNextLayer <= length pNextDeltas ->
  o < m_outputCount L ->
  for_loop 0 (m_outputCount pNextLayer)
    (fun i fError =>
       d <- lift (load pNextDeltas i) ;;
       w <- lift (load (m_pWeights pNextLayer) (m_outputCount L * i + o)) ;;
       ret (f_add fError (f_mul d w)))
    f_zero L
  = Some (f_sum f_zero
            (map (fun k => f_mul (at_index pNextDeltas k)
                                 (at_index (m_pWeights pNextLayer)
                                    (m_outputCount L * k + o)))
                 (seq 0 (m_outputCount pNextLayer))), L).
Proof.
  intros HW Hnd Ho.
  match goal with |- for_loop _ _ ?body _ _ = _ =>
    destruct (for_loop_inv
      (fun i acc s =>
         s = L /\
         acc = f_sum f_zero
                 (map (fun k => f_mul (at_index pNextDeltas k)
                                      (at_index (m_pWeights pNextLayer)
                                         (m_outputCount L * k + o)))
                      (seq 0 i)))
      body (m_outputCount pNextLayer) 0 f_zero L)
      as (acc & s & Hloop & -> & ->)
  end; [ | | rewrite Hloop; reflexivity ].
  - split; reflexivity.
  - intros i acc s Hi [-> ->].
    assert (Hx : i < length pNextDeltas) by lia.
    lift_step (load_in_range pNextDeltas i f_zero Hx).
    assert (Hj : m_outputCount L * i + o < length (m_pWeights pNextLayer)).
    { pose proof (row_index_bound (m_outputCount L) (m_outputCount pNextLayer) i o).
      lia. }
    lift_step (load_in_range (m_pWeights pNextLayer) _ f_zero Hj).
    eexists _, _. split; [reflexivity|]. split; [reflexivity|].
    now rewrite f_sum_snoc.
Qed.

(** X16: [computeDeltas] never compares the next layer's input width with
    this layer's output width.  It walks the next layer's weights with
    this layer's output width as the row stride, reading element
    [n_out * k + o]; the call is defined as soon as the next layer holds
    [n_out * N.n_out] weights, and then
    [deltas[o] = (sum_k nextDeltas[k] * N.W[n_out * k + o]) * transferDerivative (values[o])]. *)
Theorem computeDeltas_stride (L N : Layer F) (nextDeltas values deltas : list F) :
  m_outputCount L * m_outputCount N <= length (m_pWeights N) ->
  m_outputCount N <= length nextDeltas ->
  m_outputCount L <= length values ->
  m_outputCount L <= length deltas ->
  exists deltas',
    computeDeltas N nextDeltas values deltas L = Some (deltas', L) /\
    length deltas' = length deltas /\
    (forall o, o < m_outputCount L ->
       nth_error deltas' o
       = Some (f_mul
                 (f_sum f_zero
                    (map (fun k => f_mul (at_index nextDeltas k)
                                         (at_index (m_pWeights N)
                                            (m_outputCount L * k + o)))
                         (seq 0 (m_outputCount N))))
                 (transferDerivative (at_index values o)))) /\
    (forall o, m_outputCount L <= o -> nth_error deltas' o = nth_error deltas o).
Proof.
  intros HW Hnd Hv Hd.
  unfold computeDeltas. rewrite bind_gets.
  match goal with |- context [for_loop _ _ ?body _ _] =>
    destruct (for_loop_inv
      (fun o ds s =>
         s = L /\ length ds = length deltas /\
         (forall k, k < o ->
            nth_error ds k
            = Some (f_mul
                      (f_sum f_zero
                         (map (fun j => f_mul (at_index nextDeltas j)
                                              (at_index (m_pWeights N)
                                                 (m_outputCount L * j + k)))
                              (seq 0 (m_outputCount N))))
                      (transferDerivative (at_index values k)))) /\
         (forall k, o <= k -> nth_error ds k = nth_error deltas k))
      body (m_outputCount L) 0 deltas L)
      as (ds & s & Hloop & -> & Hlen & Hlo & Hhi)
  end.
  - repeat split; intros; lia.
  - intros o ds s Ho (-> & Hlen & Hlo & Hhi).
    assert (Ho' : o < m_outputCount L) by lia.
    bind_step (computeDeltas_row_stride L N nextDeltas o HW Hnd Ho').
    assert (H1 : o < length values) by lia.
    assert (H2 : o < length ds) by lia.
    lift_step (load_in_range values o f_zero H1).
    match goal with |- context [store ds o ?v] =>
      destruct (store_Some ds o v H2) as (ds' & Hst)
    end.
    exists ds', L. split.
    + unfold lift, at_index in *. now rewrite Hst.
    + split; [reflexivity|]. split; [|split].
      * rewrite (store_length _ _ _ _ Hst). exact Hlen.
      * intros k Hk. destruct (Nat.eq_dec k o) as [->|Hne].
        -- exact (store_same _ _ _ _ Hst).
        -- rewrite (store_other _ _ _ _ _ Hst Hne). apply Hlo. lia.
      * intros k Hk.
        assert (Hne : k <> o) by lia.
        rewrite (store_other _ _ _ _ _ Hst Hne). apply Hhi. lia.
  - exists ds. split; [exact Hloop|]. split; [exact Hlen|].
    split; [exact Hlo | exact Hhi].
Qed.

End Stride.

(** A layer of output width 1 against a next layer of input width 2: the
    widths do not match, and the call still runs. *)
Lemma computeDeltas_stride_witness :
  exists deltas',
    computeDeltas Demo.output [1%R] [1%R] [0%R] Demo.layer
    = Some (deltas', Demo.layer) /\
    length deltas' = 1 /\
    (forall o, o < 1 ->
       nth_error deltas' o
       = Some (f_mul
                 (f_sum f_zero
                    (map (fun k => f_mul (at_index [1%R] k)
                                         (at_index (m_pWeights Demo.output) (1 * k + o)))
                         (seq 0 1)))
                 (transferDerivative (at_index [1%R] o)))) /\
    (forall o, 1 <= o -> nth_error deltas' o = nth_error [0%R] o).
Proof.
  apply (computeDeltas_stride Demo.layer Demo.output [1%R] [1%R] [0%R]);
    cbn; lia.
Defined.

(** ** Training on examples the network already fits, in exact arithmetic *)

Module FittedExamples.

Import Exact.

Open Scope R_scope.

Lemma f_sum_zero_terms (init : R) (terms : list R) :
  Forall (fun t => t = 0) terms -> f_sum init terms = init.
Proof.
  unfold f_sum. revert init.
  induction terms as [|t terms IH]; intros init H; [reflexivity|].
  inversion H; subst. cbn [fold_left f_add Exact.ops].
  rewrite IH by assumption. lra.
Qed.

Lemma outputDeltas_fitted (n : nat) (values : list R) :
  spec_outputDeltas n values values = map (fun _ => 0) (seq 0 n).
Proof.
  unfold spec_outputDeltas, output_error. apply map_ext. intros o.
  cbn [f_sub f_mul Exact.ops]. lra.
Qed.

Lemma squaredError_fitted (n : nat) (values : list R) :
  spec_squaredError n values values = 0.
Proof.
  unfold spec_squaredError, output_error.
  rewrite f_sum_zero_terms; [reflexivity|].
  apply Forall_map, Forall_forall. intros o _.
  cbn [f_sub f_mul Exact.ops]. lra.
Qed.

Lemma zeros_all_zero (n : nat) : all_zero (map (fun _ => 0) (seq 0 n)).
Proof.
  intros k. unfold at_index. destruct (Nat.lt_ge_cases k n) as [H|H].
  - apply nth_error_some_nth. now rewrite nth_error_map_seq.
  - apply nth_overflow. now rewrite length_map, length_seq.
Qed.

Lemma deltas_of_zero (L N : Layer R) (nextDeltas values : list R) :
  all_zero nextDeltas ->
  spec_deltas L N nextDeltas values = map (fun _ => 0) (seq 0 (m_outputCount L)).
Proof.
  intros Hz. unfold spec_deltas, backpropagated_error. apply map_ext. intros o.
  rewrite f_sum_zero_terms.
  - cbn [f_mul f_zero Exact.ops]. lra.
  - apply Forall_map, Forall_forall. intros k _. rewrite Hz.
    cbn [f_mul f_zero Exact.ops]. lra.
Qed.

Lemma map_seq_identity (p : list R) (g : nat -> R) :
  (forall j, (j < length p)%nat -> g j = at_index p j) ->
  map g (seq 0 (length p)) = p.
Proof.
  intros H. apply buffer_ext.
  - now rewrite length_map, length_seq.
  - intros j Hj. rewrite length_map, length_seq in Hj.
    rewrite nth_error_map_seq by exact Hj. rewrite (H j Hj).
    symmetry. now apply nth_error_nth'.
Qed.

Lemma updateWeights_of_zero (L : Layer R) (inputs deltas : list R) (lr : R) :
  Layer_wf L -> all_zero deltas -> spec_updateWeights L inputs deltas lr = L.
Proof.
  intros [HW Hb] Hz. destruct L as [ni no W b].
  cbn [m_inputCount m_outputCount m_pWeights m_pBiases] in *.
  unfold spec_updateWeights, b_at.
  cbn [m_inputCount m_outputCount m_pWeights m_pBiases]. f_equal.
  - rewrite <- HW. apply map_seq_identity. intros j _. rewrite Hz.
    cbn [f_add f_mul f_zero Exact.ops]. lra.
  - rewrite <- Hb. apply map_seq_identity. intros j _. rewrite Hz.
    cbn [f_add f_mul f_zero Exact.ops]. lra.
Qed.

Lemma train_example_fitted (lr : R) (net : NeuralNet R) (example : list R * list R) :
  NeuralNet_wf net -> fits net example ->
  spec_train_example lr net example = net /\ spec_example_error net example = 0.
Proof.
  intros (Hwh & Hwo & _) Hfit. destruct example as [x e]. unfold fits in Hfit.
  cbn [fst snd] in Hfit. destruct net as [h o].
  cbn [m_hiddenLayer m_outputLayer] in *.
  unfold spec_train_example, spec_example_error.
  cbn [m_hiddenLayer m_outputLayer]. rewrite Hfit.
  rewrite outputDeltas_fitted, squaredError_fitted.
  rewrite (deltas_of_zero h o _ _ (zeros_all_zero _)).
  rewrite !updateWeights_of_zero by (assumption || apply zeros_all_zero).
  split; reflexivity.
Qed.

Lemma epoch_fitted (lr : R) (examples : list (list R * list R)) (net : NeuralNet R) :
  NeuralNet_wf net -> Forall (fits net) examples ->
  spec_epoch lr examples net = (f_zero, net).
Proof.
  intros Hwf Hfit. unfold spec_epoch. generalize (@f_zero R Exact.ops).
  induction Hfit as [|ex rest Hex _ IH]; intros total; [reflexivity|].
  cbn [fold_left].
  destruct (train_example_fitted lr net ex Hwf Hex) as [-> ->].
  cbn [f_add Exact.ops]. rewrite Rplus_0_r. apply IH.
Qed.

Lemma train_fitted_closed (lr : R) (examples : list (list R * list R))
  (net : NeuralNet R) (k : nat) :
  NeuralNet_wf net -> Forall (fits net) examples ->
  spec_train lr examples k net = net /\
  spec_report lr examples net k = (Z.of_nat k, 0).
Proof.
  intros Hwf Hfit.
  assert (Hk : forall k, spec_train lr examples k net = net).
  { induction k0 as [|k0 IH]; cbn [spec_train]; [reflexivity|].
    rewrite IH. now rewrite epoch_fitted. }
  split; [apply Hk|]. unfold spec_report. rewrite Hk.
  now rewrite epoch_fitted.
Qed.

(** X17: in exact arithmetic a network that already reproduces every
    expected output is a fixed point of training: [train] returns it
    unchanged, whatever the learning rate, and every epoch reports the
    total error 0. *)
Theorem train_fitted (net : NeuralNet R) (pAllInputs pAllExpectedOutputs : list R)
  (testCount epochCount : nat) (learningRate : R) :
  NeuralNet_wf net ->
  length pAllInputs = (testCount * m_inputCount (m_hiddenLayer net))%nat ->
  length pAllExpectedOutputs = (testCount * m_outputCount (m_outputLayer net))%nat ->
  (Z.of_nat epochCount <= INT_MAX)%Z ->
  Forall (fits net)
    (examples_of pAllInputs pAllExpectedOutputs
       (m_inputCount (m_hiddenLayer net)) (m_outputCount (m_outputLayer net))
       testCount) ->
  train pAllInputs pAllExpectedOutputs testCount epochCount learningRate net
  = Some (map (fun k => (Z.of_nat k, 0)) (seq 0 epochCount), net).
Proof.
  intros Hwf Hin Hex Hmax Hfit.
  rewrite (train_closed net pAllInputs pAllExpectedOutputs testCount epochCount
             learningRate Hwf Hin Hex Hmax).
  cbv zeta.
  destruct (train_fitted_closed learningRate _ net epochCount Hwf Hfit) as [-> _].
  do 2 f_equal. apply map_ext. intros k.
  now destruct (train_fitted_closed learningRate _ net k Hwf Hfit) as [_ ->].
Qed.

Close Scope R_scope.

End FittedExamples.

Lemma train_fitted_witness :
  train [1%R] [3%R] 1 2 (1 / 2)%R Demo.net
  = Some (map (fun k => (Z.of_nat k, 0%R)) (seq 0 2), Demo.net).
Proof.
  apply (FittedExamples.train_fitted Demo.net [1%R] [3%R] 1 2 (1 / 2)%R).
  - split; [split; reflexivity|]. split; [split; reflexivity | reflexivity].
  - reflexivity.
  - reflexivity.
  - unfold INT_MAX. lia.
  - constructor; [|constructor]. unfold fits, slice.
    cbn [fst snd m_hiddenLayer m_outputLayer Demo.net firstn skipn Nat.mul
         m_inputCount m_outputCount Demo.hidden Demo.output].
    fold Demo.hidden Demo.output.
    now rewrite OrderMatters.hidden_values, OrderMatters.output_values.
Defined.

(** ** The default pair on the non-negative half line *)

Lemma contract_holds_nonneg_witness :
  transferDerivative (transfer 2%R) = Exact.elu_true_derivative 2%R.
Proof. apply (EluContract.contract_holds_nonneg 2%R). lra. Defined.
